(** * pgpool-II: src/protocol/pool_pg_utils.c

  A shallow embedding of the three services of pool_pg_utils.c

  - [make_persistent_db_connection] and [send_startup_packet]
    (the V3 startup packet sent to a backend),
  - [select_load_balancing_node] and [choose_db_node_id]
    (the choice of the backend that serves read queries),
  - [Pgversion] (the cached probe of the backend's version),

  together with the properties stated about them.

  Conventions.  A C [int] is a [Z]; where the source can leave the range of
  [int] the wrap-around is written out ([wrap_int]).  A [char *] is the
  list of the characters found at the pointer; the C string it denotes is
  the prefix before the first NUL ([c_str]).  A C [double] is an IEEE 754
  binary64 number, Rocq's primitive [float].  Functions that [ereport] at
  ERROR or FATAL return the error as a value; calls into other modules of
  pgpool are listed in an event trace. *)

From Stdlib Require Import ZArith String Ascii Bool Lia List Sorted.
From Stdlib Require Import Floats.
Import ListNotations.

Local Open Scope Z_scope.

(** ** C strings and the libc functions the file calls *)

Module CString.

Definition NUL : ascii := Ascii.zero.

(** The value of a [char] as an [unsigned char]. *)
Definition code (c : ascii) : Z := Z.of_nat (nat_of_ascii c).

Definition is_nul (c : ascii) : bool := code c =? 0.

(** A string literal of the source. *)
Definition lit (s : string) : list ascii := list_ascii_of_string s.

(** The C string found at a pointer: the characters before the first NUL. *)
Fixpoint c_str (s : list ascii) : list ascii :=
  match s with
  | [] => []
  | c :: s' => if is_nul c then [] else c :: c_str s'
  end.

Definition strlen (s : list ascii) : Z := Z.of_nat (length (c_str s)).

(** [strcmp]: the difference of the first two characters that differ,
    compared as [unsigned char]; the end of a list is its terminator. *)
Fixpoint strcmp (a b : list ascii) : Z :=
  match a, b with
  | [], [] => 0
  | [], y :: _ => 0 - code y
  | x :: _, [] => code x
  | x :: a', y :: b' =>
      if code x =? code y
      then (if is_nul x then 0 else strcmp a' b')
      else code x - code y
  end.

(** [int] is 32 bits wide, [long] 64 bits. *)
Definition INT_MAX : Z := 2147483647.
Definition LONG_MAX : Z := 9223372036854775807.
Definition LONG_MIN : Z := -9223372036854775808.

(** Conversion of a [long] to [int]: the low 32 bits, as a signed number. *)
Definition wrap_int (z : Z) : Z := (z + 2147483648) mod 4294967296 - 2147483648.

Definition isspace (c : ascii) : bool :=
  let n := code c in (n =? 32) || ((9 <=? n) && (n <=? 13)).

Definition digit_val (c : ascii) : option Z :=
  let n := code c in
  if (48 <=? n) && (n <=? 57) then Some (n - 48) else None.

Fixpoint skip_spaces (s : list ascii) : list ascii :=
  match s with
  | c :: s' => if isspace c then skip_spaces s' else s
  | [] => []
  end.

(** The digits at the head of [s], read in base ten onto [acc].  The scan
    stops at the first character that is no digit, so also at a NUL. *)
Fixpoint digits (s : list ascii) (acc : Z) : Z :=
  match s with
  | c :: s' =>
      match digit_val c with
      | Some d => digits s' (acc * 10 + d)
      | None => acc
      end
  | [] => acc
  end.

(** [strtol(s, NULL, 10)]: white space, an optional sign, digits; a value
    outside of [long] is clamped. *)
Definition strtol10 (s : list ascii) : Z :=
  let s1 := skip_spaces s in
  let v :=
    match s1 with
    | c :: t =>
        if code c =? 45 then - digits t 0
        else if code c =? 43 then digits t 0
        else digits s1 0
    | [] => 0
    end in
  Z.max LONG_MIN (Z.min LONG_MAX v).

(** [atoi(s)] is [(int) strtol(s, NULL, 10)]. *)
Definition atoi (s : list ascii) : Z := wrap_int (strtol10 s).

(** [snprintf(dst + off, size, "%s", s)] on the buffer [dst]: when
    [size > 0], at most [size - 1] characters of the C string [s] and a
    NUL are stored from [off] on; the result is the length of [s], written
    or not.  (A format without conversion, such as ["user"], behaves as
    ["%s"] applied to it.)  The C strings of this file are shorter than
    [INT_MAX], so the result fits an [int]. *)
Definition store_at (dst : list ascii) (off : Z) (src : list ascii) : list ascii :=
  firstn (Z.to_nat off) dst ++ src
    ++ skipn (Z.to_nat off + length src) dst.

Definition snprintf (dst : list ascii) (off size : Z) (s : list ascii)
  : list ascii * Z :=
  let body := c_str s in
  let dst' :=
    if 0 <? size
    then store_at dst off (firstn (Z.to_nat (size - 1)) body ++ [NUL])
    else dst in
  (dst', strlen s).

(** [strncpy(dst, src, n)] into a buffer of [length dst] characters:
    the first [n] characters of the C string [src], padded with NULs up to
    [n]; the characters of [dst] from [n] on are kept. *)
Definition strncpy (dst src : list ascii) (n : nat) : list ascii :=
  let body := firstn n (c_str src) in
  body ++ repeat NUL (n - length body) ++ skipn n dst.

End CString.

Import CString.

(** ** The cluster as the macros of pool.h show it

  [NUM_BACKENDS], [PRIMARY_NODE_ID], [MASTER_NODE_ID], [VALID_BACKEND],
  [VALID_BACKEND_RAW], [BACKEND_INFO(i).backend_weight] and [SL_MODE] are
  macros over shared memory that this file only reads. *)

Record Cluster : Type := {
  NUM_BACKENDS : Z;
  PRIMARY_NODE_ID : Z;
  MASTER_NODE_ID : Z;
  VALID_BACKEND : Z -> bool;
  VALID_BACKEND_RAW : Z -> bool;
  backend_weight : Z -> float;
  SL_MODE : bool
}.

(** ** choose_db_node_id *)

Module NodeToken.

(** [choose_db_node_id(str)]. *)
Definition choose_db_node_id (cl : Cluster) (str : list ascii) : Z :=
  let node_id := MASTER_NODE_ID cl in
  if (strcmp (lit "primary") str =? 0) && (PRIMARY_NODE_ID cl >=? 0)
  then PRIMARY_NODE_ID cl
  else if strcmp (lit "standby") str =? 0
  then -1
  else
    let tmp := atoi str in
    if (tmp >=? 0) && (tmp <? NUM_BACKENDS cl) then tmp else node_id.

End NodeToken.

(** ** make_persistent_db_connection, send_startup_packet *)

Module Opener.

Definition byte_of (z : Z) : ascii := ascii_of_nat (Z.to_nat (z mod 256)).

(** The four bytes that [htonl(z)] leaves in memory: most significant
    first. *)
Definition htonl (z : Z) : list ascii :=
  [byte_of (z / 16777216); byte_of (z / 65536); byte_of (z / 256); byte_of z].

Definition MAX_USER_AND_DATABASE : Z := 1024.

(** [StartupPacket_v3]: [protoVersion] as its four bytes in memory, and
    [data], an array of [MAX_USER_AND_DATABASE] characters. *)
Record StartupPacket_v3 : Type := {
  protoVersion : list ascii;
  data : list ascii
}.

(** [palloc0(sizeof(StartupPacket_v3))]. *)
Definition palloc0_startup_packet : StartupPacket_v3 :=
  {| protoVersion := repeat NUL 4;
     data := repeat NUL (Z.to_nat MAX_USER_AND_DATABASE) |}.

(** The structure read as an array of characters, as the cast of
    [startup_packet] to a character pointer shows it. *)
Definition raw (p : StartupPacket_v3) : list ascii := protoVersion p ++ data p.

Record StartupPacket : Type := {
  startup_packet : list ascii;
  len : Z;
  major : Z;
  minor : Z;
  database : list ascii;
  user : list ascii
}.

Record POOL_CONNECTION : Type := {
  fd : Z;
  isbackend : Z;
  db_node_id : Z
}.

Record POOL_CONNECTION_POOL_SLOT : Type := {
  sp : StartupPacket;
  con : POOL_CONNECTION;
  closetime : Z
}.

(** What [ereport(ERROR, (errmsg(..), errdetail(..)))] raises. *)
Inductive detail : Type :=
| detail_text (s : string)
| detail_connection_failed (hostname : list ascii) (port : Z).

Record error : Type := { errmsg : string; errdetail : detail }.

(** The blocks of memory of one call. *)
Inductive block : Type :=
| blk_cp | blk_startup_packet | blk_sp | blk_database | blk_user.

(** Calls that leave this file, in the order they are made. *)
Inductive event : Type :=
| palloc (b : block)
| pfree (b : block)
| connect_unix_domain_socket_by_port (port : Z) (path : list ascii) (retry : bool)
| connect_inet_domain_socket_by_port (hostname : list ascii) (port : Z) (retry : bool)
| pool_open (fd : Z)
| pool_set_db_node_id (id : Z)
| pool_ssl_negotiate_clientserver
| pool_close
| pool_write (bytes : list ascii)
| pool_write_and_flush (bytes : list ascii)
| connection_do_auth (password : list ascii).

(** What the backend side answers: the descriptor that the connect call
    returns, and the error, if any, that sending the packet or the
    authentication raises. *)
Record Peer : Type := {
  connect_fd : Z;
  send_error : option error;
  auth_error : option error
}.

Inductive outcome : Type :=
| Raised (e : error)
| Returned (cp : POOL_CONNECTION_POOL_SLOT).

(** [free_persisten_db_connection_memory(cp)], for a [cp] that is not
    NULL; [has_sp] tells whether [cp->sp] is set. *)
Definition free_persisten_db_connection_memory (has_sp : bool) : list event :=
  if has_sp
  then [pfree blk_startup_packet; pfree blk_database; pfree blk_user;
        pfree blk_sp; pfree blk_cp]
  else [pfree blk_cp].

(** [send_startup_packet(cp)]. *)
Definition send_startup_packet (s : StartupPacket) : list event :=
  [pool_write (htonl (len s + 4));
   pool_write_and_flush (firstn (Z.to_nat (len s)) (startup_packet s))].

(** The three places that report an overflow of [data]. *)
Inductive site : Type := site_user | site_database_key | site_dbname.

(** Lines 100 to 135: the parameters written into [data].  The result is
    the place of the overflow, or the buffer and the offset [len] reached
    before the last NUL is stored. *)
Definition build_params (data0 user dbname : list ascii)
  : site + (list ascii * Z) :=
  let size := MAX_USER_AND_DATABASE in
  let '(d, n) := snprintf data0 0 size (lit "user") in
  let len := n + 1 in
  let '(d, n) := snprintf d len (size - len) user in
  let len1 := n + 1 in
  if len1 >=? size - len then inl site_user else
  let len := len + len1 in
  let '(d, n) := snprintf d len (size - len) (lit "database") in
  let len1 := n + 1 in
  if len1 >=? size - len then inl site_database_key else
  let len := len + len1 in
  let '(d, n) := snprintf d len (size - len) dbname in
  let len1 := n + 1 in
  if len1 >=? size - len then inl site_dbname else
  let len := len + len1 in
  inr (d, len).

Definition overflow_detail (s : site) : string :=
  match s with
  | site_user => "user name is too long"
  | site_database_key => "user name is too long"
  | site_dbname => "database name is too long"
  end.

(** [data[len] = '\0'] : a store inside the array, or none. *)
Definition store_char (d : list ascii) (i : Z) (c : ascii) : option (list ascii) :=
  if (0 <=? i) && (i <? Z.of_nat (length d))
  then Some (store_at d i [c])
  else None.

(** [make_persistent_db_connection].  [None] stands for a store outside of
    [data], which has no defined behaviour. *)
Definition make_persistent_db_connection (peer : Peer)
    (node_id : Z) (hostname : list ascii) (port : Z)
    (dbname user password : list ascii) (retry : bool)
  : option (list event * outcome) :=
  let failed := "failed to make persistent db connection"%string in
  let t := [palloc blk_cp; palloc blk_startup_packet] in
  let pkt := {| protoVersion := htonl 0x00030000;
                data := data palloc0_startup_packet |} in
  let t := t ++
    [match hostname with
     | c :: _ =>
         if code c =? 47
         then connect_unix_domain_socket_by_port port hostname retry
         else connect_inet_domain_socket_by_port hostname port retry
     | [] => connect_inet_domain_socket_by_port hostname port retry
     end] in
  let fd := connect_fd peer in
  if fd <? 0 then
    Some (t ++ free_persisten_db_connection_memory false
            ++ [pfree blk_startup_packet],
          Raised {| errmsg := failed;
                    errdetail := detail_connection_failed hostname port |})
  else
  let cn := {| fd := fd; isbackend := 1; db_node_id := node_id |} in
  let t := t ++ [pool_open fd; pool_set_db_node_id node_id;
                 pool_ssl_negotiate_clientserver] in
  match build_params (data pkt) user dbname with
  | inl s =>
      Some (t ++ [pool_close] ++ free_persisten_db_connection_memory false
              ++ [pfree blk_startup_packet],
            Raised {| errmsg := failed;
                      errdetail := detail_text (overflow_detail s) |})
  | inr (d, len) =>
      match store_char d len NUL with
      | None => None
      | Some d =>
          let len := len + 1 in
          let pkt := {| protoVersion := protoVersion pkt; data := d |} in
          let s := {| startup_packet := raw pkt;
                      len := len + 4;
                      major := 3;
                      minor := 0;
                      database := c_str dbname;
                      user := c_str user |} in
          let cp := {| sp := s; con := cn; closetime := 0 |} in
          let t := t ++ [palloc blk_sp; palloc blk_database; palloc blk_user] in
          let t := t ++ send_startup_packet s in
          match send_error peer with
          | Some e =>
              Some (t ++ [pool_close] ++ free_persisten_db_connection_memory true,
                    Raised e)
          | None =>
              let t := t ++ [connection_do_auth password] in
              match auth_error peer with
              | Some e =>
                  Some (t ++ [pool_close]
                          ++ free_persisten_db_connection_memory true,
                        Raised e)
              | None => Some (t, Returned cp)
              end
          end
      end
  end.

(** The parameters of a V3 startup packet for [user] and [dbname]: the
    names and the values, each followed by a NUL. *)
Definition parameter_list (user dbname : list ascii) : list ascii :=
  lit "user" ++ [NUL] ++ c_str user ++ [NUL]
    ++ lit "database" ++ [NUL] ++ c_str dbname ++ [NUL].

(** The parameters that a slot carries: the bytes of its packet after the
    protocol version. *)
Definition payload (cp : POOL_CONNECTION_POOL_SLOT) : list ascii :=
  skipn 4 (firstn (Z.to_nat (len (sp cp))) (startup_packet (sp cp))).

(** The bytes that a trace puts on the wire. *)
Fixpoint wire (t : list event) : list ascii :=
  match t with
  | [] => []
  | pool_write b :: t' => b ++ wire t'
  | pool_write_and_flush b :: t' => b ++ wire t'
  | _ :: t' => wire t'
  end.

(** Blocks allocated in a trace and not freed in it. *)
Definition block_eqb (a b : block) : bool :=
  match a, b with
  | blk_cp, blk_cp | blk_startup_packet, blk_startup_packet
  | blk_sp, blk_sp | blk_database, blk_database | blk_user, blk_user => true
  | _, _ => false
  end.

Fixpoint live (t : list event) (acc : list block) : list block :=
  match t with
  | [] => acc
  | palloc b :: t' => live t' (b :: acc)
  | pfree b :: t' => live t' (filter (fun x => negb (block_eqb x b)) acc)
  | _ :: t' => live t' acc
  end.

(** The transport is open after a trace: opened, and not closed since. *)
Fixpoint transport_open (t : list event) (st : bool) : bool :=
  match t with
  | [] => st
  | pool_open _ :: t' => transport_open t' true
  | pool_close :: t' => transport_open t' false
  | _ :: t' => transport_open t' st
  end.

End Opener.

(** ** select_load_balancing_node *)

Module Selector.

Import NodeToken.

(** One entry of [pool_config->db_redirect_tokens->token] or of
    [pool_config->app_name_redirect_tokens->token]. *)
Record redirect_token : Type := {
  right_token : list ascii;
  weight_token : float
}.

(** A compiled list of regular expressions; each pattern is given by the
    strings it matches. *)
Record RegArray : Type := { regex : list (list ascii -> bool) }.

(** Modelled from the spec: [regex_array_match] of utils/regex_array.c,
    which is not among the sources.  It finds the first pattern that
    matches and yields its index, or -1 when no pattern matches. *)
Fixpoint first_match (ps : list (list ascii -> bool)) (s : list ascii) (i : Z) : Z :=
  match ps with
  | [] => -1
  | p :: ps' => if p s then i else first_match ps' s (i + 1)
  end.

Definition regex_array_match (ar : RegArray) (s : list ascii) : Z :=
  first_match (regex ar) (c_str s) 0.

(** The fields of [pool_config] that the selection reads; [None] is a NULL
    pointer. *)
Record POOL_CONFIG : Type := {
  redirect_dbnames : option RegArray;
  db_redirect_tokens : list redirect_token;
  redirect_app_names : option RegArray;
  app_name_redirect_tokens : list redirect_token
}.

(** [MASTER_CONNECTION(ses->backend)->sp]. *)
Record Session : Type := {
  database : list ascii;
  application_name : option (list ascii)
}.

(** [tokens->token[i]]; an index outside of the array has no defined
    behaviour ([None]). *)
Definition token_at (tokens : list redirect_token) (i : Z) : option redirect_token :=
  if i <? 0 then None else nth_error tokens (Z.to_nat i).

(** [if (tmp == -1 || (tmp >= 0 && VALID_BACKEND(tmp))) suggested_node_id = tmp]. *)
Definition suggest (cl : Cluster) (tmp suggested_node_id : Z) : Z :=
  if (tmp =? -1) || ((tmp >=? 0) && VALID_BACKEND cl tmp)
  then tmp else suggested_node_id.

(** The three variables that the two preference lists set. *)
Record Rules : Type := {
  index_db : Z;
  index_app : Z;
  suggested_node_id : Z
}.

(** Lines 314 to 336: database_redirect_preference_list. *)
Definition check_db (cl : Cluster) (cfg : POOL_CONFIG) (ses : Session)
  : option Rules :=
  let init := {| index_db := -1; index_app := -1; suggested_node_id := -2 |} in
  if SL_MODE cl then
    match redirect_dbnames cfg with
    | Some ar =>
        let idx := regex_array_match ar (database ses) in
        if idx >=? 0 then
          match token_at (db_redirect_tokens cfg) idx with
          | Some tk =>
              let tmp := choose_db_node_id cl (right_token tk) in
              Some {| index_db := idx; index_app := -1;
                      suggested_node_id := suggest cl tmp (-2) |}
          | None => None
          end
        else Some {| index_db := idx; index_app := -1; suggested_node_id := -2 |}
    | None => Some init
    end
  else Some init.

(** Lines 341 to 378: app_name_redirect_preference_list. *)
Definition check_app (cl : Cluster) (cfg : POOL_CONFIG) (ses : Session)
    (st : Rules) : option Rules :=
  if SL_MODE cl then
    match redirect_app_names cfg, application_name ses with
    | Some ar, Some app_name =>
        if strlen app_name >? 0 then
          let idx := regex_array_match ar app_name in
          if idx >=? 0 then
            match token_at (app_name_redirect_tokens cfg) idx with
            | Some tk =>
                let tmp := choose_db_node_id cl (right_token tk) in
                Some {| index_db := -1; index_app := idx;
                        suggested_node_id :=
                          suggest cl tmp (suggested_node_id st) |}
            | None => None
            end
          else Some {| index_db := index_db st; index_app := idx;
                       suggested_node_id := suggested_node_id st |}
        else Some st
    | _, _ => Some st
    end
  else Some st.

(** [index >= 0 && test(r, tokens->token[index].weight_token)]. *)
Definition weight_test (test : float -> float -> bool)
    (tokens : list redirect_token) (index : Z) (r : float) : option bool :=
  if index >=? 0 then
    match token_at tokens index with
    | Some tk => Some (test r (weight_token tk))
    | None => None
    end
  else Some false.

(** [a || b], where [b] is only evaluated when [a] is false. *)
Definition orelse (a b : option bool) : option bool :=
  match a with
  | Some true => Some true
  | Some false => b
  | None => None
  end.

(** The test of line 387 ([r <= weight]) and of line 403 ([r > weight]). *)
Definition within_weight (cfg : POOL_CONFIG) (st : Rules) (r : float) : option bool :=
  orelse (weight_test PrimFloat.leb (db_redirect_tokens cfg) (index_db st) r)
         (weight_test PrimFloat.leb (app_name_redirect_tokens cfg) (index_app st) r).

Definition beyond_weight (cfg : POOL_CONFIG) (st : Rules) (r : float) : option bool :=
  orelse (weight_test (fun r w => PrimFloat.ltb w r) (db_redirect_tokens cfg) (index_db st) r)
         (weight_test (fun r w => PrimFloat.ltb w r) (app_name_redirect_tokens cfg) (index_app st) r).

(** The values that [i] takes in [for (i = 0; i < NUM_BACKENDS; i++)]. *)
Definition backend_ids (cl : Cluster) : list Z :=
  map Z.of_nat (seq 0 (Z.to_nat (NUM_BACKENDS cl))).

(** The body of the loop of lines 417 to 431. *)
Definition add_weight (cl : Cluster) (suggested no_load_balance_node_id : Z)
    (total_weight : float) (i : Z) : float :=
  if VALID_BACKEND_RAW cl i then
    if i =? no_load_balance_node_id then total_weight
    else if suggested =? -1 then
      if negb (i =? PRIMARY_NODE_ID cl)
      then PrimFloat.add total_weight (backend_weight cl i)
      else total_weight
    else PrimFloat.add total_weight (backend_weight cl i)
  else total_weight.

Definition total_weight (cl : Cluster) (suggested no_load_balance_node_id : Z) : float :=
  fold_left (add_weight cl suggested no_load_balance_node_id)
            (backend_ids cl) PrimFloat.zero.

(** The loop of lines 440 to 453, from the backend ids that are left. *)
Fixpoint pick (cl : Cluster) (suggested no_load_balance_node_id : Z)
    (r : float) (ids : list Z) (total_weight : float) (selected_slot : Z) : Z :=
  match ids with
  | [] => selected_slot
  | i :: rest =>
      if ((suggested =? -1) && (i =? PRIMARY_NODE_ID cl))
         || (i =? no_load_balance_node_id)
      then pick cl suggested no_load_balance_node_id r rest total_weight selected_slot
      else if VALID_BACKEND_RAW cl i
              && PrimFloat.ltb PrimFloat.zero (backend_weight cl i)
      then
        if PrimFloat.leb total_weight r
        then pick cl suggested no_load_balance_node_id r rest
                  (PrimFloat.add total_weight (backend_weight cl i)) i
        else selected_slot
      else pick cl suggested no_load_balance_node_id r rest total_weight selected_slot
  end.

(** Lines 413 to 457: the backend chosen in random manner with weight.
    [rnd] is the value of [((double) random()) / RAND_MAX]. *)
Definition weighted_choice (cl : Cluster) (suggested no_load_balance_node_id : Z)
    (rnd : float) : Z :=
  let r := PrimFloat.mul rnd (total_weight cl suggested no_load_balance_node_id) in
  pick cl suggested no_load_balance_node_id r (backend_ids cl)
       PrimFloat.zero (MASTER_NODE_ID cl).

(** How a call leaves the function. *)
Inductive exit : Type :=
| direct_hit        (* line 393 *)
| to_primary        (* line 409 *)
| weighted.         (* line 457 *)

(** [select_load_balancing_node], with the values [rnd1] and [rnd2] of the
    two evaluations of [((double) random()) / RAND_MAX]; the result names
    the [return] that was taken. *)
Definition select_load_balancing_node_at (cl : Cluster) (cfg : POOL_CONFIG)
    (ses : Session) (rnd1 rnd2 : float) : option (exit * Z) :=
  let r := rnd1 in
  match check_db cl cfg ses with
  | None => None
  | Some st =>
  match check_app cl cfg ses st with
  | None => None
  | Some st =>
      let suggested := suggested_node_id st in
      let after_standby (no_load_balance_node_id : Z) : option (exit * Z) :=
        let fall := Some (weighted,
                          weighted_choice cl suggested no_load_balance_node_id rnd2) in
        if suggested =? -1 then
          match beyond_weight cfg st r with
          | None => None
          | Some true => Some (to_primary, PRIMARY_NODE_ID cl)
          | Some false => fall
          end
        else fall in
      if suggested >=? 0 then
        match within_weight cfg st r with
        | None => None
        | Some true => Some (direct_hit, suggested)
        | Some false => after_standby suggested
        end
      else after_standby (-2)
  end
  end.

Definition select_load_balancing_node (cl : Cluster) (cfg : POOL_CONFIG)
    (ses : Session) (rnd1 rnd2 : float) : option Z :=
  option_map snd (select_load_balancing_node_at cl cfg ses rnd1 rnd2).

(** *** The fallback as the specification words it

    The nodes that take part are the backends [i] with [VALID_BACKEND_RAW(i)]
    other than the forbidden node and, when the suggestion is -1, other
    than the primary.  The total weight is the sum of their weights.  The
    draw walks them in ascending order, leaves out those of weight zero,
    and keeps a running sum; the node chosen is the last one for which the
    draw is at least the running sum before the node's weight is added;
    the walk ends at the first node for which it is not. *)

Definition spec_excluded (cl : Cluster) (suggested forbidden i : Z) : bool :=
  (i =? forbidden) || ((suggested =? -1) && (i =? PRIMARY_NODE_ID cl)).

Definition spec_eligible (cl : Cluster) (suggested forbidden : Z) : list Z :=
  filter (fun i => VALID_BACKEND_RAW cl i && negb (spec_excluded cl suggested forbidden i))
         (backend_ids cl).

Definition spec_total_weight (cl : Cluster) (suggested forbidden : Z) : float :=
  fold_left (fun acc i => PrimFloat.add acc (backend_weight cl i))
            (spec_eligible cl suggested forbidden) PrimFloat.zero.

Definition spec_candidates (cl : Cluster) (suggested forbidden : Z) : list Z :=
  filter (fun i => negb (PrimFloat.eqb (backend_weight cl i) PrimFloat.zero))
         (spec_eligible cl suggested forbidden).

(** The running sum in front of each candidate of a walk. *)
Fixpoint running_sums (cl : Cluster) (cands : list Z) (running_sum : float)
  : list (Z * float) :=
  match cands with
  | [] => []
  | i :: rest =>
      (i, running_sum)
        :: running_sums cl rest (PrimFloat.add running_sum (backend_weight cl i))
  end.

(** The elements of a list up to the first one that fails a test. *)
Fixpoint take_while {A : Type} (f : A -> bool) (l : list A) : list A :=
  match l with
  | [] => []
  | x :: l' => if f x then x :: take_while f l' else []
  end.

(** The node chosen by the draw [r]: the last of the candidates, in
    ascending order, reached before the draw is below the running sum;
    [MASTER_NODE_ID] when there is none. *)
Definition spec_chosen (cl : Cluster) (r : float) (cands : list Z) : Z :=
  last (map fst (take_while (fun c => PrimFloat.leb (snd c) r)
                            (running_sums cl cands PrimFloat.zero)))
       (MASTER_NODE_ID cl).

Definition spec_weighted_choice (cl : Cluster) (suggested forbidden : Z)
    (rnd : float) : Z :=
  spec_chosen cl (PrimFloat.mul rnd (spec_total_weight cl suggested forbidden))
              (spec_candidates cl suggested forbidden).

(** The weight of the rule that is active for a direct hit: that of the
    application name rule if it matched, else that of the database rule. *)
Definition spec_active_weight (cfg : POOL_CONFIG) (st : Rules) : option float :=
  if index_app st >=? 0
  then option_map weight_token (token_at (app_name_redirect_tokens cfg) (index_app st))
  else option_map weight_token (token_at (db_redirect_tokens cfg) (index_db st)).

(** The binary64 values that are not below zero: the zeros, the positive
    numbers and plus infinity. *)
Definition not_negative (x : spec_float) : Prop :=
  match x with
  | S754_zero _ => True
  | S754_finite s _ _ => s = false
  | S754_infinity s => s = false
  | S754_nan => False
  end.

(** The backends that the loop of lines 440 to 453 can select: not skipped
    by line 442, and accepted by line 445. *)
Definition selectable (cl : Cluster) (suggested no_load_balance_node_id i : Z) : bool :=
  negb (((suggested =? -1) && (i =? PRIMARY_NODE_ID cl))
        || (i =? no_load_balance_node_id))
  && (VALID_BACKEND_RAW cl i
      && PrimFloat.ltb PrimFloat.zero (backend_weight cl i)).

End Selector.

(** ** Pgversion *)

Module VersionProbe.

Definition VERSION_BUF_SIZE : nat := 10.

Record PGVersion : Type := {
  major : Z;
  minor : Z;
  version_string : list ascii
}.

(** The two [static] variables of the function.  [relcache] tells whether
    the pointer is set. *)
Record Static : Type := {
  pgversion : PGVersion;
  relcache : bool
}.

(** The variables as the loader leaves them: all bits zero.  The size of
    [version_string] comes from the declaration of [PGVersion], which is
    not among the sources, and is a parameter; it is at least one. *)
Definition initial (size : nat) : Static :=
  {| pgversion := {| major := 0; minor := 0; version_string := repeat NUL size |};
     relcache := false |}.

Inductive event : Type :=
| pool_create_relcache (relcache_size : Z) (query : string)
| pool_search_relcache (table : string).

(** What [ereport(FATAL, ...)] reports. *)
Inductive fatal : Type :=
| unable_to_create_relcache
| unable_to_search_relcache
| unable_to_find_the_first_space
| wrong_major_version (major : Z)
| wrong_minor_version (minor : Z).

Inductive answer : Type :=
| Fatal (f : fatal)
| Return (v : PGVersion).

(** What the relation cache answers to one call: whether the cache can be
    created, and the string found for the backend, if any. *)
Record Backend : Type := {
  create_ok : bool;
  version_row : option (list ascii)
}.

(** [*p] for a pointer [p] into the C string [s]: a character of the
    string, its terminator, or nothing outside of it. *)
Definition deref (s : list ascii) (p : nat) : option ascii :=
  if (p <? length s)%nat then nth_error s p
  else if (p =? length s)%nat then Some NUL
  else None.

(** [strchr(s, c)] as an offset. *)
Fixpoint strchr (s : list ascii) (c : ascii) (p : nat) : option nat :=
  match s with
  | [] => None
  | x :: s' => if code x =? code c then Some p else strchr s' c (S p)
  end.

(** [while (i < VERSION_BUF_SIZE - 1 && p && !stop( *p )) buf[i++] = *p++;]
    where [left] is [VERSION_BUF_SIZE - 1 - i].  The result is [buf] up to
    [i] and the new [p]. *)
Fixpoint copy_until (stop : ascii -> bool) (s : list ascii) (p : nat)
    (left : nat) (buf : list ascii) : option (list ascii * nat) :=
  match left with
  | O => Some (buf, p)
  | S left' =>
      match deref s p with
      | None => None
      | Some c =>
          if stop c then Some (buf, p)
          else copy_until stop s (S p) left' (buf ++ [c])
      end
  end.

Definition is_dot (c : ascii) : bool := code c =? 46.
Definition is_dot_or_space (c : ascii) : bool := (code c =? 46) || (code c =? 32).

(** The first number of the version: [atoi] of what lies between the first
    space and the first dot (lines 531 to 546). *)
Definition first_segment (s : list ascii) : option (option (Z * nat)) :=
  match strchr s " "%char 0 with
  | None => Some None
  | Some sp =>
      match copy_until is_dot s (S sp) (VERSION_BUF_SIZE - 1) [] with
      | None => None
      | Some (buf, p) => Some (Some (atoi (buf ++ [NUL]), p))
      end
  end.

(** [p++] and the next number, up to a dot or a space. *)
Definition next_segment (s : list ascii) (p : nat) : option (Z * nat) :=
  match copy_until is_dot_or_space s (S p) (VERSION_BUF_SIZE - 1) [] with
  | None => None
  | Some (buf, p) => Some (atoi (buf ++ [NUL]), p)
  end.

(** [Pgversion(backend)] on the static variables [st].  [None] stands for
    a read outside of the version string, which has no defined
    behaviour.  After [Fatal] the process exits. *)
Definition Pgversion (size : nat) (relcache_size : Z) (st : Static) (b : Backend)
  : option (Static * list event * answer) :=
  if negb (major (pgversion st) =? 0) then
    Some (st, [], Return (pgversion st))
  else
  let t := if relcache st then []
           else [pool_create_relcache relcache_size "SELECT version()"] in
  if negb (relcache st) && negb (create_ok b) then
    Some (st, t, Fatal unable_to_create_relcache)
  else
  let st := {| pgversion := pgversion st; relcache := true |} in
  let t := t ++ [pool_search_relcache "version"] in
  match version_row b with
  | None => Some (st, t, Fatal unable_to_search_relcache)
  | Some row =>
  let result := c_str row in
  match first_segment result with
  | None => None
  | Some None => Some (st, t, Fatal unable_to_find_the_first_space)
  | Some (Some (v1, p)) =>
      if (v1 <? 6) || (v1 >? 100) then Some (st, t, Fatal (wrong_major_version v1))
      else
      let second :=
        if v1 >=? 10 then Some (v1 * 10, p, st)
        else
          match next_segment result p with
          | None => None
          | Some (v2, p) =>
              let m := wrap_int (wrap_int (v1 * 10) + v2) in
              Some (m, p,
                    {| pgversion := {| major := m;
                                       minor := minor (pgversion st);
                                       version_string := version_string (pgversion st) |};
                       relcache := relcache st |})
          end in
      match second with
      | None => None
      | Some (mj, p, st) =>
          match next_segment result p with
          | None => None
          | Some (mn, _) =>
              if (mn <? 0) || (mn >? 100)
              then Some (st, t, Fatal (wrong_minor_version mn))
              else
                let v := {| major := mj; minor := mn;
                            version_string :=
                              strncpy (version_string (pgversion st)) result
                                      (size - 1) |} in
                Some ({| pgversion := v; relcache := relcache st |}, t, Return v)
          end
      end
  end
  end.

(** The number that line 591 assigns to [minor], for the version strings
    with which the function gets there. *)
Definition minor_segment (result : list ascii) : option Z :=
  match first_segment result with
  | Some (Some (v1, p)) =>
      if (v1 <? 6) || (v1 >? 100) then None
      else if v1 >=? 10 then option_map fst (next_segment result p)
      else
        match next_segment result p with
        | Some (_, p') => option_map fst (next_segment result p')
        | None => None
        end
  | _ => None
  end.

(** A run of calls, one per backend of the list: the variables at the end,
    the events of all calls, and the answers in order.  The run ends at an
    answer [Fatal]. *)
Fixpoint Pgversion_calls (size : nat) (relcache_size : Z) (st : Static)
    (bs : list Backend) : option (Static * list event * list answer) :=
  match bs with
  | [] => Some (st, [], [])
  | b :: bs' =>
      match Pgversion size relcache_size st b with
      | None => None
      | Some (st', t, Fatal f) => Some (st', t, [Fatal f])
      | Some (st', t, Return v) =>
          match Pgversion_calls size relcache_size st' bs' with
          | None => None
          | Some (st'', t', answers) => Some (st'', t ++ t', Return v :: answers)
          end
      end
  end.

End VersionProbe.

(** ** Concrete clusters, configurations and peers *)

Module Examples.

Import Opener Selector VersionProbe.

(** A backend that accepts the connection, the packet and the password. *)
Definition friendly_peer : Opener.Peer :=
  {| connect_fd := 7; send_error := None; auth_error := None |}.

Definition bob : list ascii := lit "bob".
Definition app : list ascii := lit "app".

(** A name of [n] letters. *)
Definition long_name (n : nat) : list ascii := repeat "d"%char n.

(** The pattern [^app$]. *)
Definition re_app : list ascii -> bool :=
  fun s => strcmp (lit "app") s =? 0.

Definition app_session : Session :=
  {| database := app; application_name := None |}.

(** redirect_dbnames = [("^app$", "2", 1.0)]. *)
Definition cfg_app_to_2 : POOL_CONFIG :=
  {| redirect_dbnames := Some {| regex := [re_app] |};
     db_redirect_tokens :=
       [{| right_token := lit "2"; weight_token := PrimFloat.one |}];
     redirect_app_names := None;
     app_name_redirect_tokens := [] |}.

(** The same rule with weight 0.0. *)
Definition cfg_app_to_2_never : POOL_CONFIG :=
  {| redirect_dbnames := Some {| regex := [re_app] |};
     db_redirect_tokens :=
       [{| right_token := lit "2"; weight_token := PrimFloat.zero |}];
     redirect_app_names := None;
     app_name_redirect_tokens := [] |}.

(** redirect_dbnames = [("^app$", "standby", 1.0)]. *)
Definition cfg_app_to_standby : POOL_CONFIG :=
  {| redirect_dbnames := Some {| regex := [re_app] |};
     db_redirect_tokens :=
       [{| right_token := lit "standby"; weight_token := PrimFloat.one |}];
     redirect_app_names := None;
     app_name_redirect_tokens := [] |}.

(** Three live backends in streaming replication, node 0 the primary,
    weights 0.5, 0 and 0.5. *)
Definition three_nodes : Cluster :=
  {| NUM_BACKENDS := 3;
     PRIMARY_NODE_ID := 0;
     MASTER_NODE_ID := 0;
     VALID_BACKEND := fun i => (0 <=? i) && (i <? 3);
     VALID_BACKEND_RAW := fun i => (0 <=? i) && (i <? 3);
     backend_weight := fun i => if (i =? 0) || (i =? 2) then 0.5%float else 0%float;
     SL_MODE := true |}.

(** Two backends, node 0 the primary; the standby, node 1, is down, so
    that the primary is also the first live node. *)
Definition standby_down : Cluster :=
  {| NUM_BACKENDS := 2;
     PRIMARY_NODE_ID := 0;
     MASTER_NODE_ID := 0;
     VALID_BACKEND := fun i => i =? 0;
     VALID_BACKEND_RAW := fun i => i =? 0;
     backend_weight := fun i => 0.5%float;
     SL_MODE := true |}.

(** Two backends without a primary (both are standbys, or the primary is
    not found yet); node 0 is down, so that node 1 is the first live
    node. *)
Definition no_primary_node0_down : Cluster :=
  {| NUM_BACKENDS := 2;
     PRIMARY_NODE_ID := -1;
     MASTER_NODE_ID := 1;
     VALID_BACKEND := fun i => i =? 1;
     VALID_BACKEND_RAW := fun i => i =? 1;
     backend_weight := fun i => 0.5%float;
     SL_MODE := true |}.

Definition v12_3 : list ascii := lit "PostgreSQL 12.3 on x86_64-...".
Definition v9_6_24 : list ascii := lit "PostgreSQL 9.6.24 on ...".
Definition v12beta1 : list ascii := lit "PostgreSQL 12beta1 on ...".
Definition v5_0 : list ascii := lit "PostgreSQL 5.0 on ...".
Definition v12_minor_101 : list ascii := lit "PostgreSQL 12.101 on ...".

Definition answering (row : list ascii) : Backend :=
  {| create_ok := true; version_row := Some row |}.

(** What a first call returns, without the static variables and the
    events: the two numbers, or the fatal error. *)
Definition version_of (row : list ascii) : option (Z * Z + fatal) :=
  match Pgversion 513 256 (initial 513) (answering row) with
  | Some (_, _, Return v) => Some (inl (major v, minor v))
  | Some (_, _, Fatal f) => Some (inr f)
  | None => None
  end.

(** A backend for which the relation cache has no answer. *)
Definition silent : Backend := {| create_ok := false; version_row := None |}.

End Examples.

(** ** make_persistent_db_connection_noerror, discard_persistent_db_connection,
    free_persisten_db_connection_memory, pool_free_startup_packet *)

Module Lifecycle.

Import Opener.

(** The calls that leave the file: those of [Opener], and the ones that only
    the wrapper and the discard make. *)
Inductive event : Type :=
| opener (e : Opener.event)
| EmitErrorReport (e : error)
| MemoryContextSwitchTo_oldContext
| FlushErrorState
| socket_set_nonblock (fd : Z)
| pool_flush_it
| socket_unset_nonblock (fd : Z).

(** The events of a trace that [Opener] knows. *)
Fixpoint opener_events (t : list event) : list Opener.event :=
  match t with
  | [] => []
  | opener e :: t' => e :: opener_events t'
  | _ :: t' => opener_events t'
  end.

(** [make_persistent_db_connection_noerror]: the result is the slot, or
    NULL ([None]) after an error was caught. *)
Definition make_persistent_db_connection_noerror (peer : Peer)
    (node_id : Z) (hostname : list ascii) (port : Z)
    (dbname user password : list ascii) (retry : bool)
  : option (list event * option POOL_CONNECTION_POOL_SLOT) :=
  match make_persistent_db_connection peer node_id hostname port dbname user
                                      password retry with
  | None => None
  | Some (t, Returned slot) => Some (map opener t, Some slot)
  | Some (t, Raised e) =>
      Some (map opener t
              ++ [EmitErrorReport e; MemoryContextSwitchTo_oldContext;
                  FlushErrorState],
            None)
  end.

(** The pointers of a [StartupPacket]: which of them are not NULL. *)
Record sp_pointers : Type := {
  startup_packet_set : bool;
  database_set : bool;
  user_set : bool
}.

(** [pool_free_startup_packet(sp)]; [None] is a NULL pointer. *)
Definition pool_free_startup_packet (sp : option sp_pointers) : list Opener.event :=
  match sp with
  | Some f =>
      (if startup_packet_set f then [pfree blk_startup_packet] else [])
        ++ (if database_set f then [pfree blk_database] else [])
        ++ (if user_set f then [pfree blk_user] else [])
        ++ [pfree blk_sp]
  | None => []
  end.

(** [free_persisten_db_connection_memory(cp)] for every [cp]: NULL
    ([None]), a slot without a startup packet ([Some None]), or a slot with
    one. *)
Definition free_persisten_db_connection_memory_of
    (cp : option (option sp_pointers)) : list Opener.event :=
  match cp with
  | None => []
  | Some None => [pfree blk_cp]
  | Some (Some f) =>
      (if startup_packet_set f then [pfree blk_startup_packet] else [])
        ++ (if database_set f then [pfree blk_database] else [])
        ++ (if user_set f then [pfree blk_user] else [])
        ++ [pfree blk_sp; pfree blk_cp]
  end.

(** The blocks that a list of events frees, in order. *)
Fixpoint freed (t : list Opener.event) : list block :=
  match t with
  | [] => []
  | pfree b :: t' => b :: freed t'
  | _ :: t' => freed t'
  end.

(** [discard_persistent_db_connection(cp)], for NULL ([None]) or a slot as
    [make_persistent_db_connection] returns it, whose [sp] and the three
    pointers of [sp] are set. *)
Definition discard_persistent_db_connection
    (cp : option POOL_CONNECTION_POOL_SLOT) : list event :=
  match cp with
  | None => []
  | Some cp =>
      [opener (pool_write (lit "X"));
       opener (pool_write (htonl 4));
       socket_set_nonblock (fd (con cp));
       pool_flush_it;
       socket_unset_nonblock (fd (con cp));
       opener pool_close]
        ++ map opener
             (free_persisten_db_connection_memory_of
                (Some (Some {| startup_packet_set := true;
                               database_set := true;
                               user_set := true |})))
  end.

(** The flush of a trace happens while the socket does not block: every
    [pool_flush_it] lies between a [socket_set_nonblock] and the next
    [socket_unset_nonblock]. *)
Fixpoint flushes_nonblocking (t : list event) (nonblock : bool) : bool :=
  match t with
  | [] => true
  | socket_set_nonblock _ :: t' => flushes_nonblocking t' true
  | socket_unset_nonblock _ :: t' => flushes_nonblocking t' false
  | pool_flush_it :: t' => nonblock && flushes_nonblocking t' nonblock
  | _ :: t' => flushes_nonblocking t' nonblock
  end.

(** The number of reports that a trace emits. *)
Fixpoint reports (t : list event) : list error :=
  match t with
  | [] => []
  | EmitErrorReport e :: t' => e :: reports t'
  | _ :: t' => reports t'
  end.

End Lifecycle.

(** ** watchdog/wd_ipc_defines.h *)

Module WdIpcDefines.

Inductive WDFailoverCMDTypes : Type :=
| NODE_FAILED_CMD
| NODE_FAILBACK_CMD
| NODE_PROMOTE_CMD
| MAX_FAILOVER_CMDS.

(** The value of an enumerator: the first is 0, each next one more. *)
Definition WDFailoverCMDTypes_value (c : WDFailoverCMDTypes) : Z :=
  match c with
  | NODE_FAILED_CMD => 0
  | NODE_FAILBACK_CMD => 1
  | NODE_PROMOTE_CMD => 2
  | MAX_FAILOVER_CMDS => 3
  end.

Inductive WDFailoverCMDResults : Type :=
| FAILOVER_RES_ERROR
| FAILOVER_RES_TRANSITION
| FAILOVER_RES_PROCEED_LOCK_HOLDER
| FAILOVER_RES_PROCEED_UNLOCKED
| FAILOVER_RES_BLOCKED.

Definition WDFailoverCMDResults_value (r : WDFailoverCMDResults) : Z :=
  match r with
  | FAILOVER_RES_ERROR => 0
  | FAILOVER_RES_TRANSITION => 1
  | FAILOVER_RES_PROCEED_LOCK_HOLDER => 2
  | FAILOVER_RES_PROCEED_UNLOCKED => 3
  | FAILOVER_RES_BLOCKED => 4
  end.

(** IPC message types. *)
Definition WD_REGISTER_FOR_NOTIFICATION : ascii := "0".
Definition WD_NODE_STATUS_CHANGE_COMMAND : ascii := "2".
Definition WD_GET_NODES_LIST_COMMAND : ascii := "3".
Definition WD_NODES_LIST_DATA : ascii := "4".
Definition WD_IPC_CMD_CLUSTER_IN_TRAN : ascii := "5".
Definition WD_IPC_CMD_RESULT_BAD : ascii := "6".
Definition WD_IPC_CMD_RESULT_OK : ascii := "7".
Definition WD_FUNCTION_COMMAND : ascii := "f".
Definition WD_FAILOVER_CMD_SYNC_REQUEST : ascii := "s".

Definition WD_FUNCTION_START_RECOVERY : list ascii := lit "START_RECOVERY".
Definition WD_FUNCTION_END_RECOVERY : list ascii := lit "END_RECOVERY".
Definition WD_FUNCTION_FAILBACK_REQUEST : list ascii := lit "FAILBACK_REQUEST".
Definition WD_FUNCTION_DEGENERATE_REQUEST : list ascii :=
  lit "DEGENERATE_BACKEND_REQUEST".
Definition WD_FUNCTION_PROMOTE_REQUEST : list ascii :=
  lit "PROMOTE_BACKEND_REQUEST".

Definition WD_LIFECHECK_NODE_STATUS_DEAD : Z := 1.
Definition WD_LIFECHECK_NODE_STATUS_ALIVE : Z := 2.

(** All message types, and all function names, of the header. *)
Definition message_types : list ascii :=
  [WD_REGISTER_FOR_NOTIFICATION; WD_NODE_STATUS_CHANGE_COMMAND;
   WD_GET_NODES_LIST_COMMAND; WD_NODES_LIST_DATA;
   WD_IPC_CMD_CLUSTER_IN_TRAN; WD_IPC_CMD_RESULT_BAD; WD_IPC_CMD_RESULT_OK;
   WD_FUNCTION_COMMAND; WD_FAILOVER_CMD_SYNC_REQUEST].

Definition function_names : list (list ascii) :=
  [WD_FUNCTION_START_RECOVERY; WD_FUNCTION_END_RECOVERY;
   WD_FUNCTION_FAILBACK_REQUEST; WD_FUNCTION_DEGENERATE_REQUEST;
   WD_FUNCTION_PROMOTE_REQUEST].

End WdIpcDefines.

(** ** Measures of traces and buffers *)

Module Measures.

Import VersionProbe.

(** How often a trace of [Pgversion] creates the relation cache. *)
Fixpoint creates (t : list VersionProbe.event) : nat :=
  match t with
  | [] => O
  | pool_create_relcache _ _ :: t' => S (creates t')
  | _ :: t' => creates t'
  end.

(** [buf[i] = 0] on [char buf[VERSION_BUF_SIZE]], where [buf] holds the [i]
    characters stored so far: a store inside the array, or none. *)
Definition terminate_buf (buf : list ascii) : option (list ascii) :=
  if (length buf <? VERSION_BUF_SIZE)%nat then Some (buf ++ [NUL]) else None.

(** The connect call that a host name selects (lines 72 to 79). *)
Definition connect_event (hostname : list ascii) (port : Z) (retry : bool)
  : Opener.event :=
  match hostname with
  | c :: _ =>
      if code c =? 47
      then Opener.connect_unix_domain_socket_by_port port hostname retry
      else Opener.connect_inet_domain_socket_by_port hostname port retry
  | [] => Opener.connect_inet_domain_socket_by_port hostname port retry
  end.

(** A suggestion is -2 (none), -1 (any standby) or a valid backend. *)
Definition suggestion_ok (cl : Cluster) (s : Z) : Prop :=
  s = -2 \/ s = -1 \/ (0 <= s /\ VALID_BACKEND cl s = true).

End Measures.

(** ** More clusters and configurations *)

Module MoreExamples.

Import Selector Examples.

(** Three backends of the same weight, node 0 the primary; node 1 is alive
    but not a valid backend. *)
Definition node_1_unusable : Cluster :=
  {| NUM_BACKENDS := 3;
     PRIMARY_NODE_ID := 0;
     MASTER_NODE_ID := 0;
     VALID_BACKEND := fun i => (i =? 0) || (i =? 2);
     VALID_BACKEND_RAW := fun i => (0 <=? i) && (i <? 3);
     backend_weight := fun i => 0.5%float;
     SL_MODE := true |}.

(** The pattern [^psql$]. *)
Definition re_psql : list ascii -> bool :=
  fun s => strcmp (lit "psql") s =? 0.

(** redirect_dbnames = [("^app$", "2", 0.25)] and
    redirect_app_names = [("^psql$", "1", 1.0)]. *)
Definition cfg_db_and_app : POOL_CONFIG :=
  {| redirect_dbnames := Some {| regex := [re_app] |};
     db_redirect_tokens :=
       [{| right_token := lit "2"; weight_token := 0.25%float |}];
     redirect_app_names := Some {| regex := [re_psql] |};
     app_name_redirect_tokens :=
       [{| right_token := lit "1"; weight_token := 1%float |}] |}.

Definition psql_session : Session :=
  {| database := app; application_name := Some (lit "psql") |}.

End MoreExamples.

(** * Properties *)

(** ** The startup packet *)

Section StartupPacket.

Import Opener Examples.

Lemma strlen_nonneg (s : list ascii) : 0 <= strlen s.
Proof. unfold strlen. lia. Qed.

Lemma store_at_length (d src : list ascii) (off : Z) :
  0 <= off -> off + Z.of_nat (length src) <= Z.of_nat (length d) ->
  length (store_at d off src) = length d.
Proof.
  intros Hoff Hfit. unfold store_at.
  rewrite !length_app, length_firstn, length_skipn. lia.
Qed.

Lemma store_at_prefix (d src : list ascii) (off : Z) :
  0 <= off -> off <= Z.of_nat (length d) ->
  firstn (Z.to_nat off + length src) (store_at d off src)
  = firstn (Z.to_nat off) d ++ src.
Proof.
  intros Hoff Hfit. unfold store_at.
  rewrite app_assoc, firstn_app.
  assert (Hl : length (firstn (Z.to_nat off) d ++ src)
               = (Z.to_nat off + length src)%nat).
  { rewrite length_app, length_firstn. lia. }
  rewrite Hl, Nat.sub_diag. simpl. rewrite app_nil_r.
  rewrite <- Hl. apply firstn_all.
Qed.

(** One [snprintf] of the packet: when the string and its NUL fit in what
    is left of the buffer, they are appended to what the buffer holds. *)
Lemma snprintf_appends (d pre s : list ascii) (len : Z) :
  length d = Z.to_nat MAX_USER_AND_DATABASE ->
  firstn (Z.to_nat len) d = pre ->
  Z.of_nat (length pre) = len ->
  strlen s + 1 <= MAX_USER_AND_DATABASE - len ->
  exists d',
    snprintf d len (MAX_USER_AND_DATABASE - len) s = (d', strlen s)
    /\ length d' = Z.to_nat MAX_USER_AND_DATABASE
    /\ firstn (Z.to_nat (len + (strlen s + 1))) d' = pre ++ c_str s ++ [NUL].
Proof.
  intros Hd Hpre Hlen Hfit.
  pose proof (strlen_nonneg s) as Hs.
  unfold snprintf.
  assert (Hpos : (0 <? MAX_USER_AND_DATABASE - len) = true)
    by (apply Z.ltb_lt; lia).
  rewrite Hpos.
  assert (Hall : firstn (Z.to_nat (MAX_USER_AND_DATABASE - len - 1)) (c_str s)
                 = c_str s).
  { apply firstn_all2. unfold strlen in *. lia. }
  rewrite Hall.
  eexists. split; [reflexivity|].
  assert (Hsrc : Z.of_nat (length (c_str s ++ [NUL])) = strlen s + 1).
  { rewrite length_app. simpl. unfold strlen. lia. }
  split.
  - rewrite store_at_length; [assumption | lia | ].
    rewrite Hsrc, Hd. lia.
  - replace (Z.to_nat (len + (strlen s + 1)))
      with (Z.to_nat len + length (c_str s ++ [NUL]))%nat by lia.
    rewrite store_at_prefix; [ | lia | rewrite Hd; lia ].
    rewrite Hpre. reflexivity.
Qed.

(** What [build_params] leaves when no check reports an overflow. *)
Lemma build_params_inr (d0 user dbname d : list ascii) (n : Z) :
  length d0 = Z.to_nat MAX_USER_AND_DATABASE ->
  build_params d0 user dbname = inr (d, n) ->
  length d = Z.to_nat MAX_USER_AND_DATABASE
  /\ n = strlen user + strlen dbname + 16
  /\ n <= 1023
  /\ firstn (Z.to_nat n) d = parameter_list user dbname.
Proof.
  intros Hd0 Hb.
  pose proof (strlen_nonneg user) as Hu.
  pose proof (strlen_nonneg dbname) as Hdb.
  unfold build_params in Hb.
  destruct (snprintf_appends d0 [] (lit "user") 0 Hd0 eq_refl eq_refl)
    as (d1 & E1 & L1 & P1); [vm_compute; discriminate|].
  replace (MAX_USER_AND_DATABASE - 0) with MAX_USER_AND_DATABASE in E1 by lia.
  rewrite E1 in Hb.
  change (strlen (lit "user")) with 4 in *.
  change (4 + 1) with 5 in Hb. change (0 + (4 + 1)) with 5 in P1.
  change (c_str (lit "user")) with (lit "user") in P1.
  destruct (Z.geb_spec (strlen user + 1) (MAX_USER_AND_DATABASE - 5)) as [G1|G1].
  { apply Z.geb_le in G1. unfold snprintf in Hb. cbv beta iota zeta in Hb.
    rewrite G1 in Hb. discriminate. }
  destruct (snprintf_appends d1 _ user 5 L1 P1) as (d2 & E2 & L2 & P2);
    [reflexivity | lia | ].
  rewrite E2 in Hb.
  destruct (strlen user + 1 >=? MAX_USER_AND_DATABASE - 5) eqn:C1;
    [apply Z.geb_le in C1; lia|].
  set (len2 := 5 + (strlen user + 1)) in *.
  assert (Hlen2 : Z.of_nat (length (([] ++ lit "user" ++ [NUL])
                                      ++ c_str user ++ [NUL])) = len2).
  { rewrite !length_app. simpl. unfold len2, strlen. lia. }
  destruct (Z.geb_spec (strlen (lit "database") + 1)
                       (MAX_USER_AND_DATABASE - len2)) as [G2|G2].
  { apply Z.geb_le in G2. unfold snprintf in Hb. cbv beta iota zeta in Hb.
    rewrite G2 in Hb. discriminate. }
  destruct (snprintf_appends d2 _ (lit "database") len2 L2 P2 Hlen2)
    as (d3 & E3 & L3 & P3); [lia|].
  rewrite E3 in Hb.
  change (strlen (lit "database")) with 8 in *.
  change (c_str (lit "database")) with (lit "database") in P3.
  destruct (8 + 1 >=? MAX_USER_AND_DATABASE - len2) eqn:C2;
    [apply Z.geb_le in C2; lia|].
  set (len3 := len2 + (8 + 1)) in *.
  assert (Hlen3 : Z.of_nat (length ((([] ++ lit "user" ++ [NUL])
                                       ++ c_str user ++ [NUL])
                                      ++ lit "database" ++ [NUL])) = len3).
  { rewrite length_app, Nat2Z.inj_add, Hlen2. reflexivity. }
  destruct (Z.geb_spec (strlen dbname + 1) (MAX_USER_AND_DATABASE - len3))
    as [G3|G3].
  { apply Z.geb_le in G3. unfold snprintf in Hb. cbv beta iota zeta in Hb.
    rewrite G3 in Hb. discriminate. }
  destruct (snprintf_appends d3 _ dbname len3 L3 P3 Hlen3)
    as (d4 & E4 & L4 & P4); [lia|].
  rewrite E4 in Hb.
  destruct (strlen dbname + 1 >=? MAX_USER_AND_DATABASE - len3) eqn:C3;
    [apply Z.geb_le in C3; lia|].
  injection Hb as <- <-.
  unfold MAX_USER_AND_DATABASE in *.
  repeat split; try assumption; try (unfold len3, len2; lia).
  rewrite P4. unfold parameter_list. simpl. rewrite <- !app_assoc. reflexivity.
Qed.

(** Which lengths make which check report the overflow. *)
Lemma build_params_inl (d0 user dbname : list ascii) (s : site) :
  build_params d0 user dbname = inl s ->
  match s with
  | site_user => 1018 <= strlen user
  | site_database_key => 1009 <= strlen user <= 1017
  | site_dbname =>
      strlen user <= 1008 /\ 1008 <= strlen user + strlen dbname
  end.
Proof.
  unfold build_params, snprintf. cbv beta iota zeta.
  change (strlen (lit "user")) with 4.
  change (strlen (lit "database")) with 8.
  unfold MAX_USER_AND_DATABASE.
  destruct (Z.geb_spec (strlen user + 1) (1024 - (4 + 1))) as [G1|G1].
  { intros [= <-]. lia. }
  destruct (Z.geb_spec (8 + 1) (1024 - (4 + 1 + (strlen user + 1)))) as [G2|G2].
  { intros [= <-]. lia. }
  destruct (Z.geb_spec (strlen dbname + 1)
              (1024 - (4 + 1 + (strlen user + 1) + (8 + 1)))) as [G3|G3].
  { intros [= <-]. lia. }
  discriminate.
Qed.

(** A call that gets past the three checks stores the last NUL and never
    leaves the buffer. *)
Lemma sentinel_store (d : list ascii) (n : Z) :
  length d = Z.to_nat MAX_USER_AND_DATABASE -> 0 <= n <= 1023 ->
  store_char d n NUL = Some (store_at d n [NUL])
  /\ firstn (Z.to_nat (n + 1)) (store_at d n [NUL]) = firstn (Z.to_nat n) d ++ [NUL].
Proof.
  intros Hd Hn. unfold store_char, MAX_USER_AND_DATABASE in *.
  assert (Hin : ((0 <=? n) && (n <? Z.of_nat (length d))) = true).
  { rewrite Hd. apply andb_true_iff. split; [apply Z.leb_le | apply Z.ltb_lt]; lia. }
  rewrite Hin. split; [reflexivity|].
  replace (Z.to_nat (n + 1)) with (Z.to_nat n + length [NUL])%nat by (simpl; lia).
  apply store_at_prefix; lia.
Qed.

Lemma length_data0 :
  length (data palloc0_startup_packet) = Z.to_nat MAX_USER_AND_DATABASE.
Proof. apply repeat_length. Qed.

Local Opaque palloc0_startup_packet.

Lemma length_parameter_list (user dbname : list ascii) :
  Z.of_nat (length (parameter_list user dbname)) = strlen user + strlen dbname + 16.
Proof.
  unfold parameter_list. rewrite !length_app. simpl. unfold strlen. lia.
Qed.

Lemma firstn_after_version (v body : list ascii) (k : nat) :
  length v = 4%nat -> firstn (4 + k) (v ++ body) = v ++ firstn k body.
Proof. intros <-. apply firstn_app_2. Qed.

Lemma skipn_version (v body : list ascii) :
  length v = 4%nat -> skipn 4 (v ++ body) = body.
Proof.
  intros <-. rewrite skipn_app, skipn_all, Nat.sub_diag. reflexivity.
Qed.

(** C1 (as amended).  Every call of [make_persistent_db_connection] that
    returns a slot has sent, after the length word, the protocol version
    0x00030000 and then exactly "user" NUL <user> NUL "database" NUL <dbname>
    NUL and a last NUL; that slot belongs to the node asked for, its
    transport is open, and the length recorded in its StartupPacket is 4 plus
    the length of these parameters, that is 4 + strlen(user) + strlen(dbname)
    + 17.  (For user "bob" and database "app": 4 + 23.) *)
Theorem startup_packet_of_successful_call :
  forall peer node_id hostname port dbname user password retry t cp,
    make_persistent_db_connection peer node_id hostname port dbname user
                                  password retry = Some (t, Returned cp) ->
    payload cp
    = lit "user" ++ [NUL] ++ c_str user ++ [NUL]
        ++ lit "database" ++ [NUL] ++ c_str dbname ++ [NUL] ++ [NUL]
    /\ firstn 4 (startup_packet (sp cp)) = htonl 0x00030000
    /\ len (sp cp) = 4 + Z.of_nat (length (payload cp))
    /\ len (sp cp) = 4 + (strlen user + strlen dbname + 17)
    /\ wire t = htonl (len (sp cp) + 4) ++ htonl 0x00030000 ++ payload cp
    /\ db_node_id (con cp) = node_id
    /\ transport_open t false = true.
Proof.
  intros peer node_id hostname port dbname user password retry t cp H.
  unfold make_persistent_db_connection in H.
  destruct (connect_fd peer <? 0); [discriminate|].
  simpl data in H.
  destruct (build_params (data palloc0_startup_packet) user dbname)
    as [s|[d n]] eqn:B; [discriminate|].
  destruct (build_params_inr _ _ _ _ _ length_data0 B) as (Ld & En & Bn & Pd).
  pose proof (strlen_nonneg user) as Hu.
  pose proof (strlen_nonneg dbname) as Hdb.
  destruct (sentinel_store d n Ld ltac:(lia)) as (St & Pre).
  rewrite St in H.
  destruct (send_error peer); [discriminate|].
  destruct (auth_error peer); [discriminate|].
  injection H as <- <-.
  unfold payload, send_startup_packet, raw.
  cbn [sp len startup_packet protoVersion data con db_node_id].
  replace (Z.to_nat (n + 1 + 4)) with (4 + Z.to_nat (n + 1))%nat by lia.
  rewrite (firstn_after_version _ _ _ (eq_refl : length (htonl 0x00030000) = 4%nat)).
  rewrite (skipn_version _ _ (eq_refl : length (htonl 0x00030000) = 4%nat)).
  rewrite Pre, Pd.
  assert (Hlen : Z.of_nat (length (parameter_list user dbname ++ [NUL])) = n + 1).
  { rewrite length_app, Nat2Z.inj_add, length_parameter_list. simpl. lia. }
  split; [unfold parameter_list; rewrite <- !app_assoc; reflexivity|].
  split; [reflexivity|].
  split; [lia|].
  split; [lia|].
  split; [|split; [reflexivity|]];
    (destruct hostname as [|c h]; [|destruct (code c =? 47)]);
    cbn [wire transport_open app]; rewrite ?app_nil_r; reflexivity.
Qed.

Lemma startup_packet_of_successful_call_witness :
  exists t cp,
    make_persistent_db_connection friendly_peer 1 (lit "localhost") 5432 app bob
                                  (lit "secret") false = Some (t, Returned cp)
    /\ payload cp
       = lit "user" ++ [NUL] ++ lit "bob" ++ [NUL]
           ++ lit "database" ++ [NUL] ++ lit "app" ++ [NUL] ++ [NUL]
    /\ len (sp cp) = 4 + 23.
Proof.
  destruct (make_persistent_db_connection friendly_peer 1 (lit "localhost") 5432
              app bob (lit "secret") false) as [[t [e|cp]]|] eqn:E;
    [vm_compute in E; discriminate | | vm_compute in E; discriminate].
  exists t, cp. split; [reflexivity|].
  destruct (startup_packet_of_successful_call _ _ _ _ _ _ _ _ _ _ E)
    as (P & _ & _ & L & _).
  split; [exact P | rewrite L; reflexivity].
Defined.

(** C1, as stated, fails at user "bob" and database "app": the call sends
    the 23 bytes "user" NUL "bob" NUL "database" NUL "app" NUL NUL, and the
    length recorded in the StartupPacket is 27, not 4 + 22. *)
Lemma recorded_length_bob_app_is_not_26 :
  exists t cp,
    make_persistent_db_connection friendly_peer 1 (lit "localhost") 5432 app bob
                                  (lit "secret") false = Some (t, Returned cp)
    /\ length (payload cp) = 23%nat
    /\ len (sp cp) = 27
    /\ len (sp cp) <> 4 + 22.
Proof.
  destruct (make_persistent_db_connection friendly_peer 1 (lit "localhost") 5432
              app bob (lit "secret") false) as [[t [e|cp]]|] eqn:E;
    [vm_compute in E; discriminate | | vm_compute in E; discriminate].
  exists t, cp. split; [reflexivity|].
  vm_compute in E. injection E as <- <-.
  split; [reflexivity|]. split; [reflexivity|]. discriminate.
Qed.

(** C10.  When the three checks of [len1 >= sizeof(data) - len] pass, the
    offset [len] at which [data[len++] = 0] stores the last NUL is at most
    1023: the store is inside the 1024 characters of [data]. *)
Theorem sentinel_within_buffer :
  forall user dbname d n,
    build_params (data palloc0_startup_packet) user dbname = inr (d, n) ->
    0 <= n <= 1023
    /\ Z.of_nat (length d) = MAX_USER_AND_DATABASE
    /\ store_char d n NUL = Some (store_at d n [NUL]).
Proof.
  intros user dbname d n B.
  destruct (build_params_inr _ _ _ _ _ length_data0 B) as (Ld & En & Bn & _).
  pose proof (strlen_nonneg user). pose proof (strlen_nonneg dbname).
  split; [lia|]. split; [rewrite Ld; reflexivity|].
  apply sentinel_store; [assumption | lia].
Qed.

Lemma sentinel_within_buffer_witness :
  exists d,
    build_params (data palloc0_startup_packet) bob app = inr (d, 22)
    /\ 0 <= 22 <= 1023
    /\ store_char d 22 NUL = Some (store_at d 22 [NUL]).
Proof.
  destruct (build_params (data palloc0_startup_packet) bob app)
    as [s|[d n]] eqn:B; [vm_compute in B; discriminate|].
  assert (n = 22) as -> by (vm_compute in B; injection B as _ <-; reflexivity).
  exists d. split; [reflexivity|].
  destruct (sentinel_within_buffer bob app d 22 B) as (R & _ & S).
  split; [exact R | exact S].
Defined.

(** No call leaves the buffer: the function has a defined result for all
    arguments. *)
Lemma make_persistent_db_connection_defined :
  forall peer node_id hostname port dbname user password retry,
    make_persistent_db_connection peer node_id hostname port dbname user
                                  password retry <> None.
Proof.
  intros peer node_id hostname port dbname user password retry.
  unfold make_persistent_db_connection.
  destruct (connect_fd peer <? 0); [discriminate|].
  cbn [data].
  destruct (build_params (data palloc0_startup_packet) user dbname)
    as [s|[d n]] eqn:B; [discriminate|].
  destruct (build_params_inr _ _ _ _ _ length_data0 B) as (Ld & En & Bn & _).
  pose proof (strlen_nonneg user). pose proof (strlen_nonneg dbname).
  destruct (sentinel_store d n Ld ltac:(lia)) as (S & _). rewrite S.
  destruct (send_error peer); [discriminate|].
  destruct (auth_error peer); discriminate.
Qed.

(** C5 (as amended).  When a connection is made and one of the three checks
    reports an overflow of the buffer, the call closes the transport, frees
    what it allocated and raises "failed to make persistent db connection";
    the detail is "user name is too long" at the checks that follow the user
    name and the word "database", and "database name is too long" at the
    check that follows the database name. *)
Theorem overflow_is_reported :
  forall peer node_id hostname port dbname user password retry s,
    0 <= connect_fd peer ->
    build_params (data palloc0_startup_packet) user dbname = inl s ->
    exists t,
      make_persistent_db_connection peer node_id hostname port dbname user
                                    password retry
      = Some (t, Raised {| errmsg := "failed to make persistent db connection";
                           errdetail :=
                             detail_text
                               match s with
                               | site_user | site_database_key =>
                                   "user name is too long"
                               | site_dbname => "database name is too long"
                               end |})
      /\ In pool_close t
      /\ transport_open t false = false
      /\ live t [] = [].
Proof.
  intros peer node_id hostname port dbname user password retry s Hfd B.
  unfold make_persistent_db_connection.
  assert (F : (connect_fd peer <? 0) = false) by (apply Z.ltb_ge; exact Hfd).
  rewrite F. cbn [data]. rewrite B.
  eexists. split.
  - destruct s; reflexivity.
  - destruct hostname as [|c h]; [|destruct (code c =? 47)];
      (split; [cbn; tauto | split; reflexivity]).
Qed.

Lemma overflow_is_reported_witness :
  exists t,
    make_persistent_db_connection friendly_peer 1 (lit "localhost") 5432
                                  (long_name 1100) bob (lit "secret") false
    = Some (t, Raised {| errmsg := "failed to make persistent db connection";
                         errdetail := detail_text "database name is too long" |})
    /\ transport_open t false = false
    /\ live t [] = [].
Proof.
  assert (Hfd : 0 <= connect_fd friendly_peer) by (vm_compute; discriminate).
  assert (B : build_params (data palloc0_startup_packet) bob (long_name 1100)
              = inl site_dbname) by (vm_compute; reflexivity).
  destruct (overflow_is_reported friendly_peer 1 (lit "localhost") 5432
              (long_name 1100) bob (lit "secret") false site_dbname Hfd B)
    as (t & E & _ & C & L).
  exists t. split; [exact E | split; [exact C | exact L]].
Defined.

(** C5, as stated, fails for user "bob" and a database name of 1100
    letters: the overflow is found while the database name is appended, and
    the detail of the error is not "user name is too long". *)
Lemma overflow_detail_differs_for_dbname :
  build_params (data palloc0_startup_packet) bob (long_name 1100) = inl site_dbname
  /\ exists t e,
      make_persistent_db_connection friendly_peer 1 (lit "localhost") 5432
                                    (long_name 1100) bob (lit "secret") false
      = Some (t, Raised e)
      /\ errdetail e = detail_text "database name is too long"
      /\ errdetail e <> detail_text "user name is too long".
Proof.
  split; [vm_compute; reflexivity|].
  destruct (make_persistent_db_connection friendly_peer 1 (lit "localhost") 5432
              (long_name 1100) bob (lit "secret") false) as [[t [e|cp]]|] eqn:E;
    [ | vm_compute in E; discriminate | vm_compute in E; discriminate].
  exists t, e. split; [reflexivity|].
  vm_compute in E. injection E as <- <-.
  split; [reflexivity | discriminate].
Qed.

End StartupPacket.

(** ** Tokens of the preference lists *)

Section NodeTokens.

Import NodeToken Examples.

Lemma strcmp_eq (a b : list ascii) : strcmp a b = 0 <-> c_str a = c_str b.
Proof.
  revert b. induction a as [|x a IH]; intros [|y b]; simpl.
  - tauto.
  - unfold is_nul. destruct (Z.eqb_spec (code y) 0) as [E|E]; split; intro H;
      try reflexivity; try lia; discriminate.
  - unfold is_nul. destruct (Z.eqb_spec (code x) 0) as [E|E]; split; intro H;
      try reflexivity; try lia; discriminate.
  - unfold is_nul.
    destruct (Z.eqb_spec (code x) (code y)) as [E|E].
    + assert (x = y) as ->.
      { unfold code in E. apply Nat2Z.inj in E.
        rewrite <- (ascii_nat_embedding x), <- (ascii_nat_embedding y), E.
        reflexivity. }
      destruct (code y =? 0); [tauto|].
      rewrite IH. split; [intros ->; reflexivity | intros [= H]; exact H].
    + destruct (Z.eqb_spec (code x) 0) as [Ex|Ex];
        destruct (Z.eqb_spec (code y) 0) as [Ey|Ey];
        split; intro H; try lia; try discriminate.
      injection H as -> _. contradiction.
Qed.

Lemma choose_db_node_id_primary (cl : Cluster) :
  0 <= PRIMARY_NODE_ID cl ->
  choose_db_node_id cl (lit "primary") = PRIMARY_NODE_ID cl.
Proof.
  intro H. unfold choose_db_node_id.
  change (strcmp (lit "primary") (lit "primary") =? 0) with true.
  destruct (Z.geb_spec (PRIMARY_NODE_ID cl) 0); [reflexivity | lia].
Qed.

Lemma choose_db_node_id_standby (cl : Cluster) :
  choose_db_node_id cl (lit "standby") = -1.
Proof. reflexivity. Qed.

Lemma choose_db_node_id_other (cl : Cluster) (s : list ascii) :
  c_str s <> lit "primary" -> c_str s <> lit "standby" ->
  choose_db_node_id cl s
  = if (atoi s >=? 0) && (atoi s <? NUM_BACKENDS cl)
    then atoi s else MASTER_NODE_ID cl.
Proof.
  intros Hp Hs. unfold choose_db_node_id.
  destruct (Z.eqb_spec (strcmp (lit "primary") s) 0) as [E|_].
  { apply strcmp_eq in E. symmetry in E. contradiction. }
  destruct (Z.eqb_spec (strcmp (lit "standby") s) 0) as [E|_].
  { apply strcmp_eq in E. symmetry in E. contradiction. }
  reflexivity.
Qed.

(** Without a primary the token "primary" is read by [atoi], which gives 0:
    the result is node 0 in every cluster that has a backend. *)
Lemma choose_db_node_id_primary_read_by_atoi (cl : Cluster) :
  PRIMARY_NODE_ID cl < 0 -> 0 < NUM_BACKENDS cl ->
  choose_db_node_id cl (lit "primary") = 0.
Proof.
  intros Hp Hn. unfold choose_db_node_id.
  change (strcmp (lit "primary") (lit "primary") =? 0) with true.
  change (strcmp (lit "standby") (lit "primary") =? 0) with false.
  change (atoi (lit "primary")) with 0.
  destruct (Z.geb_spec (PRIMARY_NODE_ID cl) 0); [lia|].
  destruct (Z.ltb_spec 0 (NUM_BACKENDS cl)); [reflexivity | lia].
Qed.

(** C8.  In a cluster of two backends without a primary, where node 0 is
    down and node 1 is the first live node, [choose_db_node_id("primary")] is
    0, the node that is down, and not [MASTER_NODE_ID], which is 1. *)
Theorem choose_db_node_id_primary_without_primary :
  choose_db_node_id no_primary_node0_down (lit "primary") = 0
  /\ PRIMARY_NODE_ID no_primary_node0_down = -1
  /\ MASTER_NODE_ID no_primary_node0_down = 1
  /\ VALID_BACKEND no_primary_node0_down 0 = false.
Proof. repeat split. Qed.

End NodeTokens.

(** ** The version of the backend *)

Section Version.

Import VersionProbe Examples.

(** A call with the cache set: no event, the variables untouched, the cached
    record returned. *)
Lemma Pgversion_cached (size : nat) (relcache_size : Z) (st : Static) (b : Backend) :
  major (pgversion st) <> 0 ->
  Pgversion size relcache_size st b = Some (st, [], Return (pgversion st)).
Proof.
  intro H. unfold Pgversion.
  destruct (Z.eqb_spec (major (pgversion st)) 0) as [E|_]; [contradiction|].
  reflexivity.
Qed.

(** The record that a call returns is the one that the variables hold
    afterwards. *)
Lemma Pgversion_returns_static (size : nat) (relcache_size : Z)
    (st st' : Static) (b : Backend) (t : list event) (v : PGVersion) :
  Pgversion size relcache_size st b = Some (st', t, Return v) ->
  pgversion st' = v.
Proof.
  unfold Pgversion.
  destruct (negb (major (pgversion st) =? 0)).
  { intros [= <- _ <-]. reflexivity. }
  destruct (negb (relcache st) && negb (create_ok b)); [discriminate|].
  destruct (version_row b) as [row|]; [|discriminate].
  destruct (first_segment (c_str row)) as [[[v1 p]|]|]; try discriminate.
  destruct ((v1 <? 6) || (v1 >? 100)); [discriminate|].
  destruct (v1 >=? 10).
  - destruct (next_segment (c_str row) p) as [[mn q]|]; [|discriminate].
    destruct ((mn <? 0) || (mn >? 100)); [discriminate|].
    intros [= <- _ <-]. reflexivity.
  - destruct (next_segment (c_str row) p) as [[v2 q]|]; [|discriminate].
    destruct (next_segment (c_str row) q) as [[mn q']|]; [|discriminate].
    destruct ((mn <? 0) || (mn >? 100)); [discriminate|].
    intros [= <- _ <-]. reflexivity.
Qed.

Lemma Pgversion_calls_cached (size : nat) (relcache_size : Z) (st : Static)
    (bs : list Backend) :
  major (pgversion st) <> 0 ->
  Pgversion_calls size relcache_size st bs
  = Some (st, [], map (fun _ => Return (pgversion st)) bs).
Proof.
  intro H. induction bs as [|b bs IH]; [reflexivity|].
  simpl. rewrite (Pgversion_cached size relcache_size st b H), IH. reflexivity.
Qed.

(** C9.  Once a call of [Pgversion] has returned a record whose major is not
    0, that record is what the static variable holds, and every later call,
    for whatever backend, makes no call to the relation cache, leaves the
    static variables as they are and returns the same record. *)
Theorem Pgversion_cache_is_stable :
  forall size relcache_size st0 b0 st1 t1 v,
    Pgversion size relcache_size st0 b0 = Some (st1, t1, Return v) ->
    major v <> 0 ->
    pgversion st1 = v
    /\ forall bs,
        Pgversion_calls size relcache_size st1 bs
        = Some (st1, [], map (fun _ => Return v) bs).
Proof.
  intros size relcache_size st0 b0 st1 t1 v H Hv.
  pose proof (Pgversion_returns_static _ _ _ _ _ _ _ H) as E.
  split; [exact E|].
  intro bs. rewrite <- E. apply Pgversion_calls_cached. rewrite E. exact Hv.
Qed.

Lemma Pgversion_cache_is_stable_witness :
  exists st1 t1 v,
    Pgversion 513 256 (initial 513) (answering v12_3) = Some (st1, t1, Return v)
    /\ major v = 120
    /\ Pgversion_calls 513 256 st1 [answering v9_6_24; silent; answering v5_0]
       = Some (st1, [], [Return v; Return v; Return v]).
Proof.
  destruct (Pgversion 513 256 (initial 513) (answering v12_3))
    as [[[st1 t1] [f|v]]|] eqn:E;
    [vm_compute in E; discriminate | | vm_compute in E; discriminate].
  assert (Hm : major v = 120).
  { vm_compute in E. injection E as _ _ <-. reflexivity. }
  exists st1, t1, v. split; [reflexivity|]. split; [exact Hm|].
  assert (Hv : major v <> 0) by (rewrite Hm; discriminate).
  destruct (Pgversion_cache_is_stable _ _ _ _ _ _ _ E Hv) as (_ & Hcalls).
  exact (Hcalls [answering v9_6_24; silent; answering v5_0]).
Defined.

(** A first call that finds the relation cache and a row for the backend
    reports a first number outside of 6..100. *)
Lemma Pgversion_wrong_major (size : nat) (relcache_size : Z) (st : Static)
    (b : Backend) (row : list ascii) (v1 : Z) (p : nat) :
  major (pgversion st) = 0 ->
  relcache st = true \/ create_ok b = true ->
  version_row b = Some row ->
  first_segment (c_str row) = Some (Some (v1, p)) ->
  v1 < 6 \/ v1 > 100 ->
  exists st' t,
    Pgversion size relcache_size st b = Some (st', t, Fatal (wrong_major_version v1)).
Proof.
  intros Hm Hrc Hrow Hseg Hv. unfold Pgversion.
  rewrite Hm, Hrow, Hseg. cbn [Z.eqb negb].
  assert (Hc : negb (relcache st) && negb (create_ok b) = false).
  { destruct Hrc as [-> | ->]; [reflexivity | apply andb_false_r]. }
  rewrite Hc.
  assert (Hb : (v1 <? 6) || (v1 >? 100) = true).
  { apply orb_true_iff. destruct Hv; [left; apply Z.ltb_lt | right; apply Z.gtb_lt]; lia. }
  rewrite Hb. eexists; eexists; reflexivity.
Qed.

(** And it reports a minor outside of 0..100. *)
Lemma Pgversion_wrong_minor (size : nat) (relcache_size : Z) (st : Static)
    (b : Backend) (row : list ascii) (mn : Z) :
  major (pgversion st) = 0 ->
  relcache st = true \/ create_ok b = true ->
  version_row b = Some row ->
  minor_segment (c_str row) = Some mn ->
  mn < 0 \/ mn > 100 ->
  exists st' t,
    Pgversion size relcache_size st b = Some (st', t, Fatal (wrong_minor_version mn)).
Proof.
  intros Hm Hrc Hrow Hseg Hv. unfold Pgversion.
  rewrite Hm, Hrow. cbn [Z.eqb negb].
  assert (Hc : negb (relcache st) && negb (create_ok b) = false).
  { destruct Hrc as [-> | ->]; [reflexivity | apply andb_false_r]. }
  rewrite Hc.
  assert (Hb : (mn <? 0) || (mn >? 100) = true).
  { apply orb_true_iff. destruct Hv; [left; apply Z.ltb_lt | right; apply Z.gtb_lt]; lia. }
  unfold minor_segment in Hseg.
  destruct (first_segment (c_str row)) as [[[v1 p]|]|]; try discriminate.
  destruct ((v1 <? 6) || (v1 >? 100)); [discriminate|].
  destruct (v1 >=? 10).
  - destruct (next_segment (c_str row) p) as [[mn' q]|]; [|discriminate].
    injection Hseg as ->. rewrite Hb. eexists; eexists; reflexivity.
  - destruct (next_segment (c_str row) p) as [[v2 q]|]; [|discriminate].
    destruct (next_segment (c_str row) q) as [[mn' q']|]; [|discriminate].
    injection Hseg as ->. rewrite Hb. eexists; eexists; reflexivity.
Qed.

(** C4.  [Pgversion] reads "PostgreSQL 12.3 on x86_64-..." as (120, 3),
    "PostgreSQL 9.6.24 on ..." as (96, 24) and "PostgreSQL 12beta1 on ..." with
    major 120; it is fatal for "PostgreSQL 5.0 on ...", and for every version
    string whose first number is below 6 or above 100, or whose minor is
    below 0 or above 100. *)
Theorem Pgversion_parses_version_string :
  version_of v12_3 = Some (inl (120, 3))
  /\ version_of v9_6_24 = Some (inl (96, 24))
  /\ (exists mn, version_of v12beta1 = Some (inl (120, mn)))
  /\ version_of v5_0 = Some (inr (wrong_major_version 5))
  /\ (forall size relcache_size st b row v1 p,
        major (pgversion st) = 0 ->
        relcache st = true \/ create_ok b = true ->
        version_row b = Some row ->
        first_segment (c_str row) = Some (Some (v1, p)) ->
        v1 < 6 \/ v1 > 100 ->
        exists st' t,
          Pgversion size relcache_size st b
          = Some (st', t, Fatal (wrong_major_version v1)))
  /\ (forall size relcache_size st b row mn,
        major (pgversion st) = 0 ->
        relcache st = true \/ create_ok b = true ->
        version_row b = Some row ->
        minor_segment (c_str row) = Some mn ->
        mn < 0 \/ mn > 100 ->
        exists st' t,
          Pgversion size relcache_size st b
          = Some (st', t, Fatal (wrong_minor_version mn))).
Proof.
  split; [vm_compute; reflexivity|].
  split; [vm_compute; reflexivity|].
  split; [exists 0; vm_compute; reflexivity|].
  split; [vm_compute; reflexivity|].
  split.
  - intros. eapply Pgversion_wrong_major; eassumption.
  - intros. eapply Pgversion_wrong_minor; eassumption.
Qed.

Lemma Pgversion_parses_version_string_witness :
  (exists st' t,
     Pgversion 513 256 (initial 513) (answering v5_0)
     = Some (st', t, Fatal (wrong_major_version 5)))
  /\ (exists st' t,
        Pgversion 513 256 (initial 513) (answering v12_minor_101)
        = Some (st', t, Fatal (wrong_minor_version 101))).
Proof.
  destruct Pgversion_parses_version_string as (_ & _ & _ & _ & Hmajor & Hminor).
  split.
  - apply (Hmajor 513%nat 256 (initial 513) (answering v5_0) v5_0 5 12%nat).
    + reflexivity.
    + right. reflexivity.
    + reflexivity.
    + vm_compute. reflexivity.
    + left. lia.
  - apply (Hminor 513%nat 256 (initial 513) (answering v12_minor_101)
                  v12_minor_101 101).
    + reflexivity.
    + right. reflexivity.
    + reflexivity.
    + vm_compute. reflexivity.
    + right. lia.
Defined.

End Version.

(** ** Comparisons of binary64 numbers *)

Section Binary64.

Import Selector.

Lemma SFcompare_antisym (x y : spec_float) :
  SFcompare y x = option_map CompOpp (SFcompare x y).
Proof.
  destruct x as [sx|sx| |sx mx ex], y as [sy|sy| |sy my ey]; simpl;
    try reflexivity;
    try (destruct sx; reflexivity); try (destruct sy; reflexivity);
    try (destruct sx, sy; reflexivity).
  destruct sx, sy; simpl; try reflexivity;
    rewrite (Z.compare_antisym ey ex);
    destruct (ey ?= ex); simpl; try reflexivity;
    rewrite (Pos.compare_cont_antisym mx my Eq); reflexivity.
Qed.

Lemma not_nan (x : float) : is_nan x = false -> Prim2SF x <> S754_nan.
Proof.
  unfold is_nan. rewrite eqb_spec. intros H E. rewrite E in H. discriminate.
Qed.

(** For two numbers, the test [r >= s] fails exactly when [r < s]. *)
Lemma not_ge_is_lt (r s : float) :
  is_nan r = false -> is_nan s = false ->
  PrimFloat.leb s r = false <-> PrimFloat.ltb r s = true.
Proof.
  intros Hr Hs. apply not_nan in Hr. apply not_nan in Hs.
  rewrite leb_spec, ltb_spec. unfold SFleb, SFltb.
  rewrite (SFcompare_antisym (Prim2SF r) (Prim2SF s)).
  destruct (SFcompare (Prim2SF r) (Prim2SF s)) as [[| |]|] eqn:C; simpl;
    try (split; intro; (reflexivity || discriminate)).
  exfalso.
  destruct (Prim2SF r) as [sr|sr| |sr mr er], (Prim2SF s) as [ss|ss| |ss ms es];
    try contradiction; simpl in C; discriminate.
Qed.

(** A weight that is not negative is positive exactly when it is not 0. *)
Lemma positive_is_nonzero (w : float) :
  PrimFloat.leb PrimFloat.zero w = true ->
  PrimFloat.ltb PrimFloat.zero w = negb (PrimFloat.eqb w PrimFloat.zero).
Proof.
  rewrite leb_spec, ltb_spec, eqb_spec. unfold SFleb, SFltb, SFeqb.
  rewrite (SFcompare_antisym (Prim2SF PrimFloat.zero) (Prim2SF w)).
  destruct (SFcompare (Prim2SF PrimFloat.zero) (Prim2SF w)) as [[| |]|];
    simpl; intro H; (reflexivity || discriminate).
Qed.

Lemma leb_zero_not_negative (x : float) :
  PrimFloat.leb PrimFloat.zero x = true <-> not_negative (Prim2SF x).
Proof.
  rewrite leb_spec. unfold SFleb.
  change (Prim2SF PrimFloat.zero) with (S754_zero false).
  destruct (Prim2SF x) as [[|]|[|]| |[|] m e]; simpl;
    split; intro H; try reflexivity; try discriminate; try exact I; try tauto.
Qed.

Lemma shr_1_not_negative (mrs : shr_record) :
  0 <= shr_m mrs -> 0 <= shr_m (shr_1 mrs).
Proof.
  destruct mrs as [m r s]. simpl.
  destruct m as [|p|p]; simpl; [lia | | lia].
  destruct p; simpl; lia.
Qed.

Lemma iter_pos_invariant {A : Type} (f : A -> A) (P : A -> Prop) :
  (forall x, P x -> P (f x)) ->
  forall p x, P x -> P (SpecFloat.iter_pos f p x).
Proof.
  intros Hf. induction p as [p IH|p IH|]; intros x Hx; simpl.
  - apply IH, IH, Hf, Hx.
  - apply IH, IH, Hx.
  - apply Hf, Hx.
Qed.

Lemma shr_fexp_not_negative (prec emax m e : Z) (l : location) :
  0 <= m -> 0 <= shr_m (fst (shr_fexp prec emax m e l)).
Proof.
  intro Hm. unfold shr_fexp, shr.
  assert (H0 : 0 <= shr_m (shr_record_of_loc m l)).
  { destruct l as [|[| |]]; exact Hm. }
  destruct (fexp prec emax (Zdigits2 m + e) - e) as [|p|p]; simpl; try exact H0.
  apply (iter_pos_invariant shr_1 (fun r => 0 <= shr_m r));
    [apply shr_1_not_negative | exact H0].
Qed.

Lemma round_nearest_even_not_negative (m : Z) (l : location) :
  0 <= m -> 0 <= round_nearest_even m l.
Proof.
  intro Hm. unfold round_nearest_even.
  destruct l as [|[| |]]; try lia. destruct (Z.even m); lia.
Qed.

(** Rounding keeps the sign. *)
Lemma binary_round_aux_sign (prec emax : Z) (sx : bool) (mx ex : Z) (lx : location) :
  0 <= mx ->
  match binary_round_aux prec emax sx mx ex lx with
  | S754_zero s | S754_infinity s | S754_finite s _ _ => s = sx
  | S754_nan => False
  end.
Proof.
  intro Hm. unfold binary_round_aux.
  pose proof (shr_fexp_not_negative prec emax mx ex lx Hm) as H1.
  destruct (shr_fexp prec emax mx ex lx) as [mrs' e']. simpl in H1.
  pose proof (shr_fexp_not_negative prec emax _ e' loc_Exact
                (round_nearest_even_not_negative _ (loc_of_shr_record mrs') H1)) as H2.
  destruct (shr_fexp prec emax (round_nearest_even (shr_m mrs') (loc_of_shr_record mrs'))
              e' loc_Exact) as [mrs'' e'']. simpl in H2.
  destruct (shr_m mrs'') as [|p|p]; [reflexivity | | lia].
  destruct (e'' <=? emax - prec); reflexivity.
Qed.

Lemma binary_round_sign (prec emax : Z) (sx : bool) (mx : positive) (ex : Z) :
  match binary_round prec emax sx mx ex with
  | S754_zero s | S754_infinity s | S754_finite s _ _ => s = sx
  | S754_nan => False
  end.
Proof.
  unfold binary_round.
  destruct (shl_align mx ex _) as [mz ez].
  apply binary_round_aux_sign. lia.
Qed.

Lemma SFadd_not_negative (prec emax : Z) (x y : spec_float) :
  not_negative x -> not_negative y -> not_negative (SFadd prec emax x y).
Proof.
  destruct x as [sx|sx| |sx mx ex], y as [sy|sy| |sy my ey]; simpl;
    try tauto; try (intros -> ->; reflexivity);
    try (intros _ ->; reflexivity); try (intros -> _; reflexivity).
  - intros _ _. destruct sx, sy; exact I.
  - intros -> ->. simpl.
    pose proof (binary_round_sign prec emax false
                  (fst (shl_align mx ex (Z.min ex ey))
                   + fst (shl_align my ey (Z.min ex ey))) (Z.min ex ey)) as H.
    destruct (binary_round _ _ _ _ _); simpl; tauto.
Qed.

(** The product of two numbers that are not negative is not negative,
    unless one of them is infinite. *)
Lemma SFmul_not_negative (prec emax : Z) (x y : spec_float) :
  not_negative x -> not_negative y ->
  (forall s, x <> S754_infinity s) -> (forall s, y <> S754_infinity s) ->
  not_negative (SFmul prec emax x y).
Proof.
  destruct x as [sx|sx| |sx mx ex], y as [sy|sy| |sy my ey]; simpl;
    try tauto; intros Hx Hy Fx Fy;
    try (exfalso; eapply Fx; reflexivity);
    try (exfalso; eapply Fy; reflexivity).
  subst sx sy. simpl.
  pose proof (binary_round_aux_sign prec emax false (Z.pos (mx * my)) (ex + ey)
                loc_Exact ltac:(lia)) as H.
  destruct (binary_round_aux _ _ _ _ _ _); simpl; tauto.
Qed.

Lemma add_not_negative (x y : float) :
  PrimFloat.leb PrimFloat.zero x = true ->
  PrimFloat.leb PrimFloat.zero y = true ->
  PrimFloat.leb PrimFloat.zero (PrimFloat.add x y) = true.
Proof.
  rewrite !leb_zero_not_negative, add_spec. apply SFadd_not_negative.
Qed.

(** A random value of the range 0..1 times a total weight that is a number
    and not negative is not negative. *)
Lemma mul_not_negative (rnd total : float) :
  PrimFloat.leb PrimFloat.zero rnd = true ->
  PrimFloat.leb rnd PrimFloat.one = true ->
  PrimFloat.leb PrimFloat.zero total = true ->
  PrimFloat.ltb total PrimFloat.infinity = true ->
  PrimFloat.leb PrimFloat.zero (PrimFloat.mul rnd total) = true.
Proof.
  intros H0 H1 T0 T1.
  rewrite leb_zero_not_negative in *. rewrite mul_spec.
  rewrite leb_spec in H1. rewrite ltb_spec in T1.
  apply SFmul_not_negative; try assumption.
  - intros s E. rewrite E in *. simpl in H0. subst s.
    vm_compute in H1. discriminate.
  - intros s E. rewrite E in *. simpl in T0. subst s.
    vm_compute in T1. discriminate.
Qed.

End Binary64.

(** ** The choice of the load balancing node *)

Section LoadBalancing.

Import NodeToken Selector Examples.

Lemma last_nonempty {A : Type} (x : A) (l : list A) (d d' : A) :
  last (x :: l) d = last (x :: l) d'.
Proof.
  revert x. induction l as [|y l IH]; intro x; [reflexivity|].
  change (last (y :: l) d = last (y :: l) d'). apply IH.
Qed.

Lemma take_while_incl {A : Type} (f : A -> bool) (l : list A) (x : A) :
  In x (take_while f l) -> In x l /\ f x = true.
Proof.
  induction l as [|y l IH]; simpl; [tauto|].
  destruct (f y) eqn:E; simpl; [|tauto].
  intros [<-|H]; [tauto|]. destruct (IH H). tauto.
Qed.

Lemma running_sums_fst (cl : Cluster) (cands : list Z) (s : float) :
  map fst (running_sums cl cands s) = cands.
Proof.
  revert s. induction cands as [|c cands IH]; intro s; [reflexivity|].
  simpl. rewrite IH. reflexivity.
Qed.

(** The first loop adds the weights of the eligible nodes, in order. *)
Lemma fold_add_weight (cl : Cluster) (suggested forbidden : Z) (ids : list Z)
    (acc : float) :
  fold_left (add_weight cl suggested forbidden) ids acc
  = fold_left (fun a i => PrimFloat.add a (backend_weight cl i))
      (filter (fun i => VALID_BACKEND_RAW cl i
                        && negb (spec_excluded cl suggested forbidden i)) ids)
      acc.
Proof.
  revert acc. induction ids as [|i ids IH]; intro acc; [reflexivity|].
  simpl. rewrite IH. unfold add_weight, spec_excluded.
  destruct (VALID_BACKEND_RAW cl i); simpl; [|reflexivity].
  destruct (i =? forbidden); simpl; [reflexivity|].
  destruct (suggested =? -1); simpl; [|reflexivity].
  destruct (i =? PRIMARY_NODE_ID cl); reflexivity.
Qed.

(** The second loop, with its [continue] and its [break], walks the nodes it
    can select and stops at the first running sum above the draw. *)
Lemma pick_chosen (cl : Cluster) (suggested forbidden : Z) (r : float)
    (ids : list Z) (total : float) (selected : Z) :
  pick cl suggested forbidden r ids total selected
  = last (map fst (take_while (fun c => PrimFloat.leb (snd c) r)
                     (running_sums cl
                        (filter (selectable cl suggested forbidden) ids) total)))
         selected.
Proof.
  revert total selected. induction ids as [|i ids IH]; intros total selected;
    [reflexivity|].
  simpl. unfold selectable at 1.
  destruct (((suggested =? -1) && (i =? PRIMARY_NODE_ID cl)) || (i =? forbidden));
    simpl; [apply IH|].
  destruct (VALID_BACKEND_RAW cl i
            && PrimFloat.ltb PrimFloat.zero (backend_weight cl i));
    simpl; [|apply IH].
  destruct (PrimFloat.leb total r); [|reflexivity].
  rewrite IH. simpl.
  destruct (map fst _) eqn:E; [reflexivity | apply last_nonempty].
Qed.

Lemma weighted_choice_chosen (cl : Cluster) (suggested forbidden : Z) (rnd : float) :
  weighted_choice cl suggested forbidden rnd
  = spec_chosen cl (PrimFloat.mul rnd (total_weight cl suggested forbidden))
                (filter (selectable cl suggested forbidden) (backend_ids cl)).
Proof. unfold weighted_choice, spec_chosen. apply pick_chosen. Qed.

(** Under weights that are not negative, the nodes that the loop can select
    are the candidates of the specification. *)
Lemma selectable_candidates (cl : Cluster) (suggested forbidden : Z) (ids : list Z) :
  (forall i, In i ids -> PrimFloat.leb PrimFloat.zero (backend_weight cl i) = true) ->
  filter (selectable cl suggested forbidden) ids
  = filter (fun i => negb (PrimFloat.eqb (backend_weight cl i) PrimFloat.zero))
      (filter (fun i => VALID_BACKEND_RAW cl i
                        && negb (spec_excluded cl suggested forbidden i)) ids).
Proof.
  induction ids as [|i ids IH]; intro H; [reflexivity|].
  simpl. rewrite IH by (intros j Hj; apply H; right; exact Hj).
  unfold selectable, spec_excluded.
  rewrite (positive_is_nonzero _ (H i (or_introl eq_refl))).
  destruct (VALID_BACKEND_RAW cl i); simpl;
    [| rewrite andb_false_r; reflexivity].
  rewrite (orb_comm ((suggested =? -1) && (i =? PRIMARY_NODE_ID cl)) (i =? forbidden)).
  destruct (negb ((i =? forbidden) || (suggested =? -1) && (i =? PRIMARY_NODE_ID cl)));
    simpl; [|reflexivity].
  destruct (negb (PrimFloat.eqb (backend_weight cl i) PrimFloat.zero)); reflexivity.
Qed.

(** The node chosen is the default or one of the candidates. *)
Lemma spec_chosen_cases (cl : Cluster) (r : float) (cands : list Z) :
  spec_chosen cl r cands = MASTER_NODE_ID cl \/ In (spec_chosen cl r cands) cands.
Proof.
  unfold spec_chosen.
  set (l := map fst _).
  assert (Hl : incl l cands).
  { intros x Hx. unfold l in Hx. apply in_map_iff in Hx.
    destruct Hx as (c & <- & Hc). apply take_while_incl in Hc.
    rewrite <- (running_sums_fst cl cands PrimFloat.zero).
    apply in_map. tauto. }
  destruct l as [|x l'] eqn:E; [left; reflexivity|].
  right. apply Hl. rewrite <- E.
  destruct (exists_last (l := l)) as (l0 & a & ->); [rewrite E; discriminate|].
  rewrite last_last. apply in_or_app. right. left. reflexivity.
Qed.

(** With a candidate and a draw that is not negative, the node chosen is a
    candidate. *)
Lemma spec_chosen_candidate (cl : Cluster) (r : float) (cands : list Z) :
  cands <> [] -> PrimFloat.leb PrimFloat.zero r = true ->
  In (spec_chosen cl r cands) cands.
Proof.
  intros Hne Hr.
  destruct cands as [|c cands]; [contradiction|].
  unfold spec_chosen. simpl running_sums. simpl take_while. rewrite Hr.
  set (l := take_while _ _).
  change (map fst ((c, PrimFloat.zero) :: l)) with (c :: map fst l).
  destruct (exists_last (l := c :: map fst l)) as (l0 & a & Ea); [discriminate|].
  rewrite Ea, last_last.
  assert (Hin : In a (c :: map fst l))
    by (rewrite Ea; apply in_or_app; right; left; reflexivity).
  destruct Hin as [<-|Hin]; [left; reflexivity|].
  right. apply in_map_iff in Hin. destruct Hin as (x & <- & Hx).
  apply take_while_incl in Hx.
  rewrite <- (running_sums_fst cl cands
                (PrimFloat.add PrimFloat.zero (backend_weight cl c))).
  apply in_map. tauto.
Qed.

Lemma backend_ids_from (n s : nat) :
  StronglySorted Z.lt (map Z.of_nat (seq s n)).
Proof.
  revert s. induction n as [|n IH]; intro s; simpl; constructor; [apply IH|].
  apply Forall_forall. intros x Hx. apply in_map_iff in Hx.
  destruct Hx as (k & <- & Hk). apply in_seq in Hk. lia.
Qed.

Lemma filter_ascending (f : Z -> bool) (l : list Z) :
  StronglySorted Z.lt l -> StronglySorted Z.lt (filter f l).
Proof.
  induction 1 as [|x l Hl IH Hx]; simpl; [constructor|].
  destruct (f x); [|exact IH].
  constructor; [exact IH|].
  apply Forall_forall. intros y Hy. apply filter_In in Hy.
  rewrite Forall_forall in Hx. apply Hx. tauto.
Qed.

(** C2.  With weights that are not negative, the fallback of
    [select_load_balancing_node] computes as total weight the sum of the
    weights of the backends with [VALID_BACKEND_RAW] other than the forbidden
    node and, for a suggestion of -1, other than the primary; it walks these
    backends in ascending order, leaves out those of weight zero, and returns
    the last one reached while the draw is at least the running sum taken
    before the node's weight is added (for numbers the walk ends as soon as
    the draw is below the running sum), or [MASTER_NODE_ID] when there is no
    such backend. *)
Theorem weighted_choice_refines_spec :
  forall cl suggested forbidden rnd,
    (forall i, In i (backend_ids cl) ->
               PrimFloat.leb PrimFloat.zero (backend_weight cl i) = true) ->
    total_weight cl suggested forbidden = spec_total_weight cl suggested forbidden
    /\ StronglySorted Z.lt (spec_candidates cl suggested forbidden)
    /\ weighted_choice cl suggested forbidden rnd
       = spec_weighted_choice cl suggested forbidden rnd
    /\ (spec_candidates cl suggested forbidden = [] ->
        weighted_choice cl suggested forbidden rnd = MASTER_NODE_ID cl)
    /\ (forall running_sum,
          let r := PrimFloat.mul rnd (spec_total_weight cl suggested forbidden) in
          is_nan r = false -> is_nan running_sum = false ->
          PrimFloat.leb running_sum r = false <-> PrimFloat.ltb r running_sum = true).
Proof.
  intros cl suggested forbidden rnd Hw.
  assert (Ht : total_weight cl suggested forbidden
               = spec_total_weight cl suggested forbidden)
    by apply fold_add_weight.
  assert (Hc : weighted_choice cl suggested forbidden rnd
               = spec_weighted_choice cl suggested forbidden rnd).
  { rewrite weighted_choice_chosen, Ht. unfold spec_weighted_choice.
    f_equal. apply selectable_candidates. exact Hw. }
  split; [exact Ht|].
  split; [unfold spec_candidates, spec_eligible, backend_ids;
          do 2 apply filter_ascending; apply backend_ids_from|].
  split; [exact Hc|].
  split.
  - intro E. rewrite Hc. unfold spec_weighted_choice. rewrite E. reflexivity.
  - intros running_sum r. apply not_ge_is_lt.
Qed.

Lemma weighted_choice_refines_spec_witness :
  spec_candidates three_nodes (-2) (-2) = [0; 2]
  /\ spec_total_weight three_nodes (-2) (-2) = 1%float
  /\ spec_weighted_choice three_nodes (-2) (-2) 0.75%float = 2
  /\ weighted_choice three_nodes (-2) (-2) 0.75%float
     = spec_weighted_choice three_nodes (-2) (-2) 0.75%float.
Proof.
  assert (Hw : forall i, In i (backend_ids three_nodes) ->
                 PrimFloat.leb PrimFloat.zero (backend_weight three_nodes i) = true).
  { intros i [<-|[<-|[<-|[]]]]; vm_compute; reflexivity. }
  destruct (weighted_choice_refines_spec three_nodes (-2) (-2) 0.75%float Hw)
    as (_ & _ & Hc & _).
  split; [vm_compute; reflexivity|].
  split; [vm_compute; reflexivity|].
  split; [vm_compute; reflexivity | exact Hc].
Defined.

(** What the fallback returns: [MASTER_NODE_ID], or a backend that the
    second loop can select. *)
Lemma weighted_choice_cases (cl : Cluster) (suggested forbidden : Z) (rnd : float) :
  let id := weighted_choice cl suggested forbidden rnd in
  id = MASTER_NODE_ID cl
  \/ (In id (backend_ids cl) /\ selectable cl suggested forbidden id = true).
Proof.
  intro id. unfold id. rewrite weighted_choice_chosen.
  destruct (spec_chosen_cases cl
              (PrimFloat.mul rnd (total_weight cl suggested forbidden))
              (filter (selectable cl suggested forbidden) (backend_ids cl)))
    as [E|H]; [left; exact E | right; apply filter_In; exact H].
Qed.

Lemma weighted_choice_selects (cl : Cluster) (suggested forbidden : Z) (rnd : float) :
  (exists i, In i (backend_ids cl) /\ selectable cl suggested forbidden i = true) ->
  PrimFloat.leb PrimFloat.zero
                (PrimFloat.mul rnd (total_weight cl suggested forbidden)) = true ->
  let id := weighted_choice cl suggested forbidden rnd in
  In id (backend_ids cl) /\ selectable cl suggested forbidden id = true.
Proof.
  intros (i & Hi & Si) Hr id. unfold id. rewrite weighted_choice_chosen.
  apply filter_In. apply spec_chosen_candidate; [|exact Hr].
  intro E. assert (Hin : In i (filter (selectable cl suggested forbidden)
                                      (backend_ids cl)))
    by (apply filter_In; tauto).
  rewrite E in Hin. exact Hin.
Qed.

Lemma weighted_choice_default (cl : Cluster) (suggested forbidden : Z) (rnd : float) :
  (forall i, In i (backend_ids cl) -> selectable cl suggested forbidden i = false) ->
  weighted_choice cl suggested forbidden rnd = MASTER_NODE_ID cl.
Proof.
  intro H. rewrite weighted_choice_chosen.
  assert (E : filter (selectable cl suggested forbidden) (backend_ids cl) = []).
  { destruct (filter _ _) as [|x l] eqn:F; [reflexivity|].
    assert (Hx : In x (filter (selectable cl suggested forbidden) (backend_ids cl)))
      by (rewrite F; left; reflexivity).
    apply filter_In in Hx. destruct Hx as (Hx & Sx).
    rewrite (H x Hx) in Sx. discriminate. }
  rewrite E. reflexivity.
Qed.

(** The total weight of weights that are not negative is not negative. *)
Lemma add_weights_not_negative (cl : Cluster) (suggested forbidden : Z)
    (ids : list Z) (acc : float) :
  PrimFloat.leb PrimFloat.zero acc = true ->
  (forall i, In i ids ->
             PrimFloat.leb PrimFloat.zero (backend_weight cl i) = true) ->
  PrimFloat.leb PrimFloat.zero
    (fold_left (add_weight cl suggested forbidden) ids acc) = true.
Proof.
  revert acc. induction ids as [|i ids IH]; intros acc Hacc Hw; [exact Hacc|].
  simpl. apply IH; [|intros j Hj; apply Hw; right; exact Hj].
  unfold add_weight.
  assert (Hi : PrimFloat.leb PrimFloat.zero (backend_weight cl i) = true)
    by (apply Hw; left; reflexivity).
  destruct (VALID_BACKEND_RAW cl i); [|exact Hacc].
  destruct (i =? forbidden); [exact Hacc|].
  destruct (suggested =? -1);
    [destruct (negb (i =? PRIMARY_NODE_ID cl)); [|exact Hacc]|];
    apply add_not_negative; assumption.
Qed.

Lemma total_weight_not_negative (cl : Cluster) (suggested forbidden : Z) :
  (forall i, In i (backend_ids cl) ->
             PrimFloat.leb PrimFloat.zero (backend_weight cl i) = true) ->
  PrimFloat.leb PrimFloat.zero (total_weight cl suggested forbidden) = true.
Proof. apply add_weights_not_negative. reflexivity. Qed.

(** The second draw is not negative when the weights are not negative,
    their total is finite and the random value lies in 0..1. *)
Lemma draw_not_negative (cl : Cluster) (suggested forbidden : Z) (rnd : float) :
  (forall i, In i (backend_ids cl) ->
             PrimFloat.leb PrimFloat.zero (backend_weight cl i) = true) ->
  PrimFloat.ltb (total_weight cl suggested forbidden) PrimFloat.infinity = true ->
  PrimFloat.leb PrimFloat.zero rnd = true ->
  PrimFloat.leb rnd PrimFloat.one = true ->
  PrimFloat.leb PrimFloat.zero
    (PrimFloat.mul rnd (total_weight cl suggested forbidden)) = true.
Proof.
  intros Hw Hfin H0 H1.
  apply mul_not_negative; try assumption.
  apply total_weight_not_negative. exact Hw.
Qed.

(** What [selectable] says, spelled out. *)
Lemma selectable_spec (cl : Cluster) (suggested forbidden i : Z) :
  selectable cl suggested forbidden i = true <->
  i <> forbidden
  /\ (suggested = -1 -> i <> PRIMARY_NODE_ID cl)
  /\ VALID_BACKEND_RAW cl i = true
  /\ PrimFloat.ltb PrimFloat.zero (backend_weight cl i) = true.
Proof.
  unfold selectable.
  rewrite !andb_true_iff, negb_true_iff, orb_false_iff, andb_false_iff.
  rewrite !Z.eqb_neq. split.
  - intros ((H1 & H2) & H3 & H4). repeat split; try assumption.
    intros ->. destruct H1 as [H1|H1]; [contradiction | exact H1].
  - intros (H1 & H2 & H3 & H4). repeat split; try assumption.
    destruct (Z.eq_dec suggested (-1)) as [E|E]; [right; auto | left; exact E].
Qed.

(** What the two preference lists leave in the three variables. *)
Lemma check_db_rules (cl : Cluster) (cfg : POOL_CONFIG) (ses : Session) (st : Rules) :
  check_db cl cfg ses = Some st ->
  index_app st = -1
  /\ (suggested_node_id st <> -2 ->
      0 <= index_db st
      /\ exists tk, token_at (db_redirect_tokens cfg) (index_db st) = Some tk).
Proof.
  unfold check_db.
  destruct (SL_MODE cl); [|intros [= <-]; simpl; split; [reflexivity | congruence]].
  destruct (redirect_dbnames cfg) as [ar|];
    [|intros [= <-]; simpl; split; [reflexivity | congruence]].
  destruct (Z.geb_spec (regex_array_match ar (database ses)) 0) as [G|G];
    [|intros [= <-]; simpl; split; [reflexivity | congruence]].
  destruct (token_at (db_redirect_tokens cfg) (regex_array_match ar (database ses)))
    as [tk|] eqn:T; [|discriminate].
  intros [= <-]. simpl. split; [reflexivity|].
  intros _. split; [lia | exists tk; exact T].
Qed.

Lemma check_app_rules (cl : Cluster) (cfg : POOL_CONFIG) (ses : Session)
    (st0 st : Rules) :
  check_db cl cfg ses = Some st0 ->
  check_app cl cfg ses st0 = Some st ->
  suggested_node_id st <> -2 ->
  (0 <= index_app st /\ index_db st = -1
   /\ exists tk, token_at (app_name_redirect_tokens cfg) (index_app st) = Some tk)
  \/ (index_app st < 0 /\ 0 <= index_db st
      /\ exists tk, token_at (db_redirect_tokens cfg) (index_db st) = Some tk).
Proof.
  intros Hdb Happ Hs.
  destruct (check_db_rules _ _ _ _ Hdb) as (Ia & Hd).
  assert (Keep : st = st0 ->
                 index_app st < 0 /\ 0 <= index_db st
                 /\ exists tk, token_at (db_redirect_tokens cfg) (index_db st) = Some tk).
  { intros ->. destruct (Hd Hs) as (H1 & H2). repeat split; [lia | lia | exact H2]. }
  unfold check_app in Happ.
  destruct (SL_MODE cl); [|right; apply Keep; congruence].
  destruct (redirect_app_names cfg) as [ar|]; [|right; apply Keep; congruence].
  destruct (application_name ses) as [app_name|]; [|right; apply Keep; congruence].
  destruct (strlen app_name >? 0); [|right; apply Keep; congruence].
  destruct (Z.geb_spec (regex_array_match ar app_name) 0) as [G|G].
  - destruct (token_at (app_name_redirect_tokens cfg) (regex_array_match ar app_name))
      as [tk|] eqn:T; [|discriminate].
    injection Happ as <-. simpl. left.
    split; [lia|]. split; [reflexivity | exists tk; exact T].
  - injection Happ as <-. simpl in *. right.
    destruct (Hd Hs) as (H1 & H2). repeat split; [lia | lia | exact H2].
Qed.

(** The test of line 387 compares [r] with the weight of the active rule. *)
Lemma within_weight_active (cl : Cluster) (cfg : POOL_CONFIG) (ses : Session)
    (st0 st : Rules) (r : float) :
  check_db cl cfg ses = Some st0 ->
  check_app cl cfg ses st0 = Some st ->
  suggested_node_id st <> -2 ->
  exists w,
    spec_active_weight cfg st = Some w
    /\ within_weight cfg st r = Some (PrimFloat.leb r w)
    /\ beyond_weight cfg st r = Some (PrimFloat.ltb w r).
Proof.
  intros Hdb Happ Hs.
  unfold spec_active_weight, within_weight, beyond_weight, weight_test.
  destruct (check_app_rules _ _ _ _ _ Hdb Happ Hs)
    as [(Ha & Hd & tk & T) | (Ha & Hd & tk & T)].
  - rewrite Hd. simpl (-1 >=? 0). cbn [orelse].
    destruct (Z.geb_spec (index_app st) 0); [|lia].
    rewrite T. exists (weight_token tk). repeat split.
  - destruct (Z.geb_spec (index_app st) 0); [lia|].
    destruct (Z.geb_spec (index_db st) 0); [|lia].
    rewrite T. exists (weight_token tk). simpl.
    split; [reflexivity|].
    split; [destruct (PrimFloat.leb r (weight_token tk))
           | destruct (PrimFloat.ltb (weight_token tk) r)]; reflexivity.
Qed.

Lemma backend_ids_range (cl : Cluster) (i : Z) :
  In i (backend_ids cl) -> 0 <= i < NUM_BACKENDS cl.
Proof.
  unfold backend_ids. intro H. apply in_map_iff in H.
  destruct H as (k & <- & Hk). apply in_seq in Hk. lia.
Qed.

(** C7.  When the preference lists suggest a node ([suggested_node_id >= 0]),
    [r] is compared with the weight of the active rule, the application name
    rule if it matched and the database rule otherwise; for [r] up to that
    weight the function returns the suggested node at once, and else it goes
    on to the weighted choice with that node left out.  With the single rule
    ("^app$", "2", 1.0) on database names and a valid backend 2, a session on
    database "app" gets node 2 for every [r] of the range 0..1 of the draw. *)
Theorem direct_hit_within_active_weight :
  (forall cl cfg ses rnd1 rnd2 st0 st,
      check_db cl cfg ses = Some st0 ->
      check_app cl cfg ses st0 = Some st ->
      0 <= suggested_node_id st ->
      exists w,
        spec_active_weight cfg st = Some w
        /\ (PrimFloat.leb rnd1 w = true ->
            select_load_balancing_node_at cl cfg ses rnd1 rnd2
            = Some (direct_hit, suggested_node_id st))
        /\ (PrimFloat.leb rnd1 w = false ->
            select_load_balancing_node_at cl cfg ses rnd1 rnd2
            = Some (weighted,
                    weighted_choice cl (suggested_node_id st)
                                    (suggested_node_id st) rnd2)))
  /\ (forall cl ses rnd1 rnd2,
        SL_MODE cl = true ->
        2 < NUM_BACKENDS cl ->
        VALID_BACKEND cl 2 = true ->
        c_str (database ses) = lit "app" ->
        PrimFloat.leb rnd1 1%float = true ->
        select_load_balancing_node cl cfg_app_to_2 ses rnd1 rnd2 = Some 2).
Proof.
  assert (General : forall cl cfg ses rnd1 rnd2 st0 st,
      check_db cl cfg ses = Some st0 ->
      check_app cl cfg ses st0 = Some st ->
      0 <= suggested_node_id st ->
      exists w,
        spec_active_weight cfg st = Some w
        /\ (PrimFloat.leb rnd1 w = true ->
            select_load_balancing_node_at cl cfg ses rnd1 rnd2
            = Some (direct_hit, suggested_node_id st))
        /\ (PrimFloat.leb rnd1 w = false ->
            select_load_balancing_node_at cl cfg ses rnd1 rnd2
            = Some (weighted,
                    weighted_choice cl (suggested_node_id st)
                                    (suggested_node_id st) rnd2))).
  { intros cl cfg ses rnd1 rnd2 st0 st Hdb Happ Hs.
    destruct (within_weight_active cl cfg ses st0 st rnd1 Hdb Happ ltac:(lia))
      as (w & Hw & Hin & _).
    exists w. split; [exact Hw|].
    unfold select_load_balancing_node_at. rewrite Hdb, Happ, Hin.
    destruct (Z.geb_spec (suggested_node_id st) 0) as [_|]; [|lia].
    split; intros ->; [reflexivity|].
    destruct (Z.eqb_spec (suggested_node_id st) (-1)) as [E|_]; [lia|].
    reflexivity. }
  split; [exact General|].
  intros cl ses rnd1 rnd2 Hsl Hn Hv Hdbname Hr.
  assert (Hdb : check_db cl cfg_app_to_2 ses
                = Some {| index_db := 0; index_app := -1; suggested_node_id := 2 |}).
  { unfold check_db, regex_array_match. rewrite Hsl, Hdbname.
    cbn [redirect_dbnames cfg_app_to_2].
    assert (E : first_match (regex {| regex := [re_app] |}) (lit "app") 0 = 0)
      by reflexivity.
    rewrite E. cbn [Z.geb Z.compare].
    assert (T : token_at (db_redirect_tokens cfg_app_to_2) 0
                = Some {| right_token := lit "2"; weight_token := 1%float |})
      by reflexivity.
    rewrite T. cbn [right_token].
    rewrite choose_db_node_id_other by (vm_compute; discriminate).
    change (atoi (lit "2")) with 2. cbn [Z.geb Z.compare andb].
    destruct (Z.ltb_spec 2 (NUM_BACKENDS cl)) as [_|]; [|lia].
    unfold suggest. rewrite Hv. reflexivity. }
  assert (Happ : check_app cl cfg_app_to_2 ses
                   {| index_db := 0; index_app := -1; suggested_node_id := 2 |}
                 = Some {| index_db := 0; index_app := -1; suggested_node_id := 2 |}).
  { unfold check_app. rewrite Hsl. reflexivity. }
  destruct (General cl cfg_app_to_2 ses rnd1 rnd2 _ _ Hdb Happ ltac:(simpl; lia))
    as (w & Hw & Hit & _).
  injection Hw as <-.
  unfold select_load_balancing_node. rewrite (Hit Hr). reflexivity.
Qed.

Lemma direct_hit_within_active_weight_witness :
  select_load_balancing_node_at three_nodes cfg_app_to_2 app_session
                                0.5%float 0.75%float = Some (direct_hit, 2)
  /\ select_load_balancing_node three_nodes cfg_app_to_2 app_session
                                0.5%float 0.75%float = Some 2.
Proof.
  destruct direct_hit_within_active_weight as (General & Scenario).
  split.
  - destruct (General three_nodes cfg_app_to_2 app_session 0.5%float 0.75%float
                {| index_db := 0; index_app := -1; suggested_node_id := 2 |}
                {| index_db := 0; index_app := -1; suggested_node_id := 2 |})
      as (w & Hw & Hit & _).
    + vm_compute. reflexivity.
    + vm_compute. reflexivity.
    + simpl. lia.
    + apply Hit. injection Hw as <-. vm_compute. reflexivity.
  - apply Scenario.
    + reflexivity.
    + simpl. lia.
    + reflexivity.
    + reflexivity.
    + vm_compute. reflexivity.
Defined.

(** C6.  When a rule suggests a node ([suggested_node_id >= 0]) and the draw
    is above the weight of the rule, the function returns the weighted
    choice with that node forbidden: if some other backend with
    [VALID_BACKEND_RAW] has a positive weight (and the second draw is not
    negative, see [draw_not_negative]), the node returned is not the
    forbidden one; if there is no such backend, it is [MASTER_NODE_ID]. *)
Theorem forbidden_node_is_not_chosen :
  forall cl cfg ses rnd1 rnd2 st0 st,
    check_db cl cfg ses = Some st0 ->
    check_app cl cfg ses st0 = Some st ->
    0 <= suggested_node_id st ->
    within_weight cfg st rnd1 = Some false ->
    let forbidden := suggested_node_id st in
    let id := weighted_choice cl forbidden forbidden rnd2 in
    select_load_balancing_node cl cfg ses rnd1 rnd2 = Some id
    /\ ((exists i, In i (backend_ids cl) /\ i <> forbidden
                   /\ VALID_BACKEND_RAW cl i = true
                   /\ PrimFloat.ltb PrimFloat.zero (backend_weight cl i) = true) ->
        PrimFloat.leb PrimFloat.zero
          (PrimFloat.mul rnd2 (total_weight cl forbidden forbidden)) = true ->
        id <> forbidden)
    /\ ((forall i, In i (backend_ids cl) -> i <> forbidden ->
                   VALID_BACKEND_RAW cl i = true ->
                   PrimFloat.ltb PrimFloat.zero (backend_weight cl i) = false) ->
        id = MASTER_NODE_ID cl).
Proof.
  intros cl cfg ses rnd1 rnd2 st0 st Hdb Happ Hs Hw forbidden id.
  split; [|split].
  - unfold select_load_balancing_node, select_load_balancing_node_at.
    rewrite Hdb, Happ, Hw.
    destruct (Z.geb_spec (suggested_node_id st) 0) as [_|]; [|lia].
    destruct (Z.eqb_spec (suggested_node_id st) (-1)) as [E|_]; [lia|].
    reflexivity.
  - intros (i & Hi & Hne & Hv & Hp) Hr.
    destruct (weighted_choice_selects cl forbidden forbidden rnd2) as (_ & S).
    + exists i. split; [exact Hi|]. apply selectable_spec.
      repeat split; try assumption. unfold forbidden. intro; lia.
    + exact Hr.
    + apply selectable_spec in S. tauto.
  - intro Hnone. apply weighted_choice_default.
    intros i Hi. destruct (selectable cl forbidden forbidden i) eqn:S; [|reflexivity].
    apply selectable_spec in S. destruct S as (S1 & _ & S3 & S4).
    rewrite (Hnone i Hi S1 S3) in S4. discriminate.
Qed.

Lemma forbidden_node_is_not_chosen_witness :
  select_load_balancing_node three_nodes cfg_app_to_2_never app_session
                             0.5%float 0.75%float = Some 0
  /\ 0 <> 2.
Proof.
  destruct (forbidden_node_is_not_chosen
              three_nodes cfg_app_to_2_never app_session 0.5%float 0.75%float
              {| index_db := 0; index_app := -1; suggested_node_id := 2 |}
              {| index_db := 0; index_app := -1; suggested_node_id := 2 |})
    as (Hsel & Hnot & _).
  - vm_compute. reflexivity.
  - vm_compute. reflexivity.
  - simpl. lia.
  - vm_compute. reflexivity.
  - split; [exact Hsel|].
    apply Hnot.
    + exists 0. split; [simpl; tauto|].
      split; [simpl; lia|]. split; reflexivity.
    + vm_compute. reflexivity.
Defined.

(** C3 (as amended).  When a rule asks for any standby
    ([suggested_node_id == -1]) and the call reaches the weighted choice,
    the node returned is [MASTER_NODE_ID] or a backend other than the
    primary that has [VALID_BACKEND_RAW] and a positive weight.  If such a
    backend exists (and the draw is not negative, see [draw_not_negative])
    the node returned is not the primary; if none exists it is
    [MASTER_NODE_ID]. *)
Theorem standby_choice_avoids_primary :
  forall cl cfg ses rnd1 rnd2 st0 st id,
    check_db cl cfg ses = Some st0 ->
    check_app cl cfg ses st0 = Some st ->
    suggested_node_id st = -1 ->
    select_load_balancing_node_at cl cfg ses rnd1 rnd2 = Some (weighted, id) ->
    id = weighted_choice cl (-1) (-2) rnd2
    /\ (id = MASTER_NODE_ID cl
        \/ (id <> PRIMARY_NODE_ID cl
            /\ VALID_BACKEND_RAW cl id = true
            /\ PrimFloat.ltb PrimFloat.zero (backend_weight cl id) = true))
    /\ ((exists i, In i (backend_ids cl) /\ i <> PRIMARY_NODE_ID cl
                   /\ VALID_BACKEND_RAW cl i = true
                   /\ PrimFloat.ltb PrimFloat.zero (backend_weight cl i) = true) ->
        PrimFloat.leb PrimFloat.zero
          (PrimFloat.mul rnd2 (total_weight cl (-1) (-2))) = true ->
        id <> PRIMARY_NODE_ID cl)
    /\ ((forall i, In i (backend_ids cl) -> i <> PRIMARY_NODE_ID cl ->
                   VALID_BACKEND_RAW cl i = true ->
                   PrimFloat.ltb PrimFloat.zero (backend_weight cl i) = false) ->
        id = MASTER_NODE_ID cl).
Proof.
  intros cl cfg ses rnd1 rnd2 st0 st id Hdb Happ Hs Hsel.
  assert (Hid : id = weighted_choice cl (-1) (-2) rnd2).
  { unfold select_load_balancing_node_at in Hsel.
    rewrite Hdb, Happ, Hs in Hsel. simpl in Hsel.
    destruct (beyond_weight cfg st rnd1) as [[|]|]; try discriminate.
    injection Hsel as <-. reflexivity. }
  split; [exact Hid|]. subst id.
  split; [|split].
  - destruct (weighted_choice_cases cl (-1) (-2) rnd2) as [E|(_ & S)];
      [left; exact E | right].
    apply selectable_spec in S. destruct S as (_ & S2 & S3 & S4).
    repeat split; [apply S2; reflexivity | exact S3 | exact S4].
  - intros (i & Hi & Hne & Hv & Hp) Hr.
    destruct (weighted_choice_selects cl (-1) (-2) rnd2) as (_ & S).
    + exists i. split; [exact Hi|]. apply selectable_spec.
      pose proof (backend_ids_range cl i Hi).
      repeat split; try assumption; [lia | intros _; exact Hne].
    + exact Hr.
    + apply selectable_spec in S. destruct S as (_ & S2 & _). apply S2. reflexivity.
  - intro Hnone. apply weighted_choice_default.
    intros i Hi. destruct (selectable cl (-1) (-2) i) eqn:S; [|reflexivity].
    apply selectable_spec in S. destruct S as (_ & S2 & S3 & S4).
    rewrite (Hnone i Hi (S2 eq_refl) S3) in S4. discriminate.
Qed.

Lemma standby_choice_avoids_primary_witness :
  select_load_balancing_node_at three_nodes cfg_app_to_standby app_session
                                0.5%float 0.75%float = Some (weighted, 2)
  /\ 2 <> PRIMARY_NODE_ID three_nodes.
Proof.
  assert (Hsel : select_load_balancing_node_at three_nodes cfg_app_to_standby
                   app_session 0.5%float 0.75%float = Some (weighted, 2))
    by (vm_compute; reflexivity).
  destruct (standby_choice_avoids_primary
              three_nodes cfg_app_to_standby app_session 0.5%float 0.75%float
              {| index_db := 0; index_app := -1; suggested_node_id := -1 |}
              {| index_db := 0; index_app := -1; suggested_node_id := -1 |} 2)
    as (_ & _ & Hnot & _).
  - vm_compute. reflexivity.
  - vm_compute. reflexivity.
  - reflexivity.
  - exact Hsel.
  - split; [exact Hsel|].
    apply Hnot.
    + exists 2. split; [simpl; tauto|].
      split; [simpl; lia|]. split; reflexivity.
    + vm_compute. reflexivity.
Defined.

(** C3, as stated, fails when the standby is down: the rule
    ("^app$", "standby", 1.0) matches, the call reaches the weighted choice,
    no backend can be selected, and [MASTER_NODE_ID], which is the primary,
    is returned. *)
Lemma standby_choice_returns_primary :
  option_map suggested_node_id
             (check_db standby_down cfg_app_to_standby app_session) = Some (-1)
  /\ select_load_balancing_node_at standby_down cfg_app_to_standby app_session
                                   0.5%float 0.75%float
     = Some (weighted, PRIMARY_NODE_ID standby_down).
Proof. split; vm_compute; reflexivity. Qed.

End LoadBalancing.

(** ** More on the persistent connection *)

Section Connection.

Import Opener Lifecycle Measures Examples.

Local Opaque palloc0_startup_packet.

(** The five ways through [make_persistent_db_connection], each with its
    trace. *)
Lemma make_persistent_db_connection_cases
    (peer : Peer) (node_id : Z) (hostname : list ascii) (port : Z)
    (dbname user password : list ascii) (retry : bool) :
  let failed := "failed to make persistent db connection"%string in
  let call := make_persistent_db_connection peer node_id hostname port dbname
                                            user password retry in
  let start := [palloc blk_cp; palloc blk_startup_packet;
                connect_event hostname port retry] in
  let opened := start ++ [pool_open (connect_fd peer);
                          pool_set_db_node_id node_id;
                          pool_ssl_negotiate_clientserver] in
  (connect_fd peer < 0
   /\ call = Some (start ++ [pfree blk_cp; pfree blk_startup_packet],
                   Raised {| errmsg := failed;
                             errdetail := detail_connection_failed hostname port |}))
  \/ (0 <= connect_fd peer
      /\ exists s,
          build_params (data palloc0_startup_packet) user dbname = inl s
          /\ call = Some (opened ++ [pool_close; pfree blk_cp;
                                     pfree blk_startup_packet],
                          Raised {| errmsg := failed;
                                    errdetail := detail_text (overflow_detail s) |}))
  \/ (0 <= connect_fd peer
      /\ exists d n,
          build_params (data palloc0_startup_packet) user dbname = inr (d, n)
          /\ let s := {| startup_packet :=
                           raw {| protoVersion := htonl 0x00030000;
                                  data := store_at d n [NUL] |};
                         len := n + 1 + 4; major := 3; minor := 0;
                         database := c_str dbname; user := c_str user |} in
             let sent := opened ++ [palloc blk_sp; palloc blk_database;
                                    palloc blk_user]
                                ++ send_startup_packet s in
             let release := [pool_close; pfree blk_startup_packet;
                             pfree blk_database; pfree blk_user;
                             pfree blk_sp; pfree blk_cp] in
             (exists e, send_error peer = Some e
                        /\ call = Some (sent ++ release, Raised e))
             \/ (send_error peer = None
                 /\ exists e, auth_error peer = Some e
                              /\ call = Some (sent ++ [connection_do_auth password]
                                                ++ release, Raised e))
             \/ (send_error peer = None /\ auth_error peer = None
                 /\ call = Some (sent ++ [connection_do_auth password],
                                 Returned {| sp := s;
                                             con := {| fd := connect_fd peer;
                                                       isbackend := 1;
                                                       db_node_id := node_id |};
                                             closetime := 0 |}))).
Proof.
  intros failed call start opened.
  unfold call, make_persistent_db_connection.
  fold (connect_event hostname port retry).
  destruct (Z.ltb_spec (connect_fd peer) 0) as [Hfd|Hfd].
  { left. split; [exact Hfd | reflexivity]. }
  right. cbn [data].
  destruct (build_params (data palloc0_startup_packet) user dbname)
    as [s|[d n]] eqn:B.
  { left. split; [exact Hfd|]. exists s. split; reflexivity. }
  right. split; [exact Hfd|]. exists d, n. split; [reflexivity|].
  destruct (build_params_inr _ _ _ _ _ length_data0 B) as (Ld & En & Bn & _).
  pose proof (strlen_nonneg user). pose proof (strlen_nonneg dbname).
  destruct (sentinel_store d n Ld ltac:(lia)) as (St & _). rewrite St.
  cbn zeta.
  destruct (send_error peer) as [es|].
  { left. exists es. split; reflexivity. }
  right. destruct (auth_error peer) as [ea|].
  { left. split; [reflexivity|]. exists ea. split; reflexivity. }
  right. repeat split; reflexivity.
Qed.


Ltac connection_cases peer node_id hostname port dbname user password retry :=
  let Hfd := fresh "Hfd" in
  let B := fresh "B" in
  destruct (make_persistent_db_connection_cases peer node_id hostname port
              dbname user password retry)
    as [(Hfd & ->)
       |[(Hfd & ?s & B & ->)
        |(Hfd & ?d & ?n & B
          & [(?e & ?Es & ->)|[(?Es & ?e & ?Ea & ->)|(?Es & ?Ea & ->)]])]].

Ltac by_host hostname :=
  unfold connect_event;
  (destruct hostname as [|?c ?h]; [|destruct (code _ =? 47)]).

(** X1.  Whenever [make_persistent_db_connection] raises an error, for
    whatever reason, every block it allocated has been freed and the
    transport, if it was opened, has been closed. *)
Theorem failure_releases_everything :
  forall peer node_id hostname port dbname user password retry t e,
    make_persistent_db_connection peer node_id hostname port dbname user
                                  password retry = Some (t, Raised e) ->
    live t [] = [] /\ transport_open t false = false.
Proof.
  intros peer node_id hostname port dbname user password retry t e.
  connection_cases peer node_id hostname port dbname user password retry;
    intros [= <- <-]; by_host hostname; split; reflexivity.
Qed.


Lemma failure_releases_everything_witness :
  exists t e,
    make_persistent_db_connection friendly_peer 1 (lit "/tmp") 5432
                                  app (long_name 1018) (lit "secret") true
    = Some (t, Raised e)
    /\ live t [] = [] /\ transport_open t false = false.
Proof.
  destruct (make_persistent_db_connection friendly_peer 1 (lit "/tmp") 5432
              app (long_name 1018) (lit "secret") true) as [[t [e|cp]]|] eqn:E;
    [ | vm_compute in E; discriminate | vm_compute in E; discriminate].
  exists t, e. split; [reflexivity|].
  exact (failure_releases_everything _ _ _ _ _ _ _ _ _ _ E).
Defined.

(** X2.  [make_persistent_db_connection] returns a slot exactly when the
    connect call gives a descriptor that is not negative, the lengths of the
    user name and of the database name add up to at most 1007, and neither
    sending the packet nor the authentication raises an error. *)
Theorem connection_succeeds_iff :
  forall peer node_id hostname port dbname user password retry,
    (exists t cp,
        make_persistent_db_connection peer node_id hostname port dbname user
                                      password retry = Some (t, Returned cp))
    <-> (0 <= connect_fd peer
         /\ strlen user + strlen dbname <= 1007
         /\ send_error peer = None
         /\ auth_error peer = None).
Proof.
  intros peer node_id hostname port dbname user password retry.
  pose proof (strlen_nonneg user) as Hu. pose proof (strlen_nonneg dbname) as Hd.
  split.
  - intros (t & cp & H). revert H.
    connection_cases peer node_id hostname port dbname user password retry;
      intros [= <- <-].
    destruct (build_params_inr _ _ _ _ _ length_data0 B) as (_ & En & Bn & _).
    repeat split; try assumption. lia.
  - intros (Hfd & Hlen & Hs & Ha).
    connection_cases peer node_id hostname port dbname user password retry;
      try lia; try congruence.
    + apply build_params_inl in B. destruct s; lia.
    + eexists; eexists; reflexivity.
Qed.

Lemma connection_succeeds_iff_witness :
  (exists t cp,
      make_persistent_db_connection friendly_peer 1 (lit "localhost") 5432
                                    (long_name 1000) (long_name 7) [] false
      = Some (t, Returned cp))
  /\ ~ (exists t cp,
          make_persistent_db_connection friendly_peer 1 (lit "localhost") 5432
                                        (long_name 1000) (long_name 8) [] false
          = Some (t, Returned cp)).
Proof.
  split.
  - apply connection_succeeds_iff.
    split; [vm_compute; discriminate|].
    split; [vm_compute; discriminate|]. split; reflexivity.
  - intro H. apply connection_succeeds_iff in H.
    destruct H as (_ & H & _). vm_compute in H. apply H. reflexivity.
Defined.

Lemma length_htonl (z : Z) : length (htonl z) = 4%nat.
Proof. reflexivity. Qed.

(** X3.  The length word that [send_startup_packet] writes first is the
    number of bytes of the whole message, the word itself included; that
    number is strlen(user) + strlen(dbname) + 25, between 25 and 1032, and
    it is [cp->sp->len + 4]. *)
Theorem startup_frame_length :
  forall peer node_id hostname port dbname user password retry t cp,
    make_persistent_db_connection peer node_id hostname port dbname user
                                  password retry = Some (t, Returned cp) ->
    wire t = htonl (Z.of_nat (length (wire t))) ++ skipn 4 (wire t)
    /\ Z.of_nat (length (wire t)) = len (sp cp) + 4
    /\ Z.of_nat (length (wire t)) = strlen user + strlen dbname + 25
    /\ 25 <= Z.of_nat (length (wire t)) <= 1032.
Proof.
  intros peer node_id hostname port dbname user password retry t cp.
  pose proof (strlen_nonneg user) as Hu. pose proof (strlen_nonneg dbname) as Hd.
  connection_cases peer node_id hostname port dbname user password retry;
    intros [= <- <-].
  destruct (build_params_inr _ _ _ _ _ length_data0 B) as (Ld & En & Bn & _).
  by_host hostname;
    cbn [wire app send_startup_packet len startup_packet sp];
    unfold raw; cbn [protoVersion data];
    rewrite ?app_nil_r;
    (assert (L : Z.of_nat (length (htonl (n + 1 + 4 + 4)
                                    ++ firstn (Z.to_nat (n + 1 + 4))
                                         (htonl 0x00030000 ++ store_at d n [NUL])))
                 = n + 9);
     [ rewrite length_app, length_htonl, length_firstn, length_app, length_htonl;
       unfold MAX_USER_AND_DATABASE in Ld;
       rewrite store_at_length by (cbn [length]; lia);
       rewrite Ld; lia
     | rewrite L; split;
       [ rewrite skipn_app, length_htonl;
         replace (skipn 4 (htonl (n + 1 + 4 + 4))) with (@nil ascii) by reflexivity;
         replace (n + 1 + 4 + 4) with (n + 9) by lia; reflexivity
       | lia ] ]).
Qed.

Lemma startup_frame_length_witness :
  exists t cp,
    make_persistent_db_connection friendly_peer 1 (lit "localhost") 5432 app bob
                                  (lit "secret") false = Some (t, Returned cp)
    /\ Z.of_nat (length (wire t)) = 31
    /\ firstn 4 (wire t) = htonl 31.
Proof.
  destruct (make_persistent_db_connection friendly_peer 1 (lit "localhost") 5432
              app bob (lit "secret") false) as [[t [e|cp]]|] eqn:E;
    [vm_compute in E; discriminate | | vm_compute in E; discriminate].
  exists t, cp. split; [reflexivity|].
  destruct (startup_frame_length _ _ _ _ _ _ _ _ _ _ E) as (W & _ & L & _).
  assert (L31 : Z.of_nat (length (wire t)) = 31) by (rewrite L; reflexivity).
  split; [exact L31|].
  rewrite W, L31. reflexivity.
Defined.


(** X4.  An error raised by [make_persistent_db_connection] is the report of
    a failed connect, which carries the host and the port, or the report of
    an overflow, or the error of [send_startup_packet] or of
    [connection_do_auth] thrown again unchanged.  In the first two cases no
    byte has been written; after a failed connect nothing is closed. *)
Theorem raised_error_provenance :
  forall peer node_id hostname port dbname user password retry t e,
    make_persistent_db_connection peer node_id hostname port dbname user
                                  password retry = Some (t, Raised e) ->
    (connect_fd peer < 0
     /\ e = {| errmsg := "failed to make persistent db connection";
               errdetail := detail_connection_failed hostname port |}
     /\ wire t = []
     /\ ~ In pool_close t)
    \/ (0 <= connect_fd peer
        /\ 1008 <= strlen user + strlen dbname
        /\ errmsg e = "failed to make persistent db connection"%string
        /\ (errdetail e = detail_text "user name is too long"
            \/ errdetail e = detail_text "database name is too long")
        /\ wire t = [])
    \/ (0 <= connect_fd peer
        /\ strlen user + strlen dbname <= 1007
        /\ (send_error peer = Some e
            \/ (send_error peer = None /\ auth_error peer = Some e))
        /\ wire t <> []).
Proof.
  intros peer node_id hostname port dbname user password retry t e.
  pose proof (strlen_nonneg user) as Hu. pose proof (strlen_nonneg dbname) as Hd.
  connection_cases peer node_id hostname port dbname user password retry;
    intros [= <- <-].
  - left. split; [exact Hfd|]. split; [reflexivity|].
    by_host hostname; (split; [reflexivity|]); cbn; intuition discriminate.
  - right. left. split; [exact Hfd|].
    pose proof (build_params_inl _ _ _ _ B) as Hs.
    split; [destruct s; lia|]. split; [reflexivity|].
    split; [destruct s; cbn; tauto|].
    by_host hostname; reflexivity.
  - right. right. split; [exact Hfd|].
    destruct (build_params_inr _ _ _ _ _ length_data0 B) as (_ & En & Bn & _).
    split; [lia|]. split; [left; exact Es|].
    by_host hostname; cbn; discriminate.
  - right. right. split; [exact Hfd|].
    destruct (build_params_inr _ _ _ _ _ length_data0 B) as (_ & En & Bn & _).
    split; [lia|]. split; [right; split; assumption|].
    by_host hostname; cbn; discriminate.
Qed.

Lemma raised_error_provenance_witness :
  exists t,
    make_persistent_db_connection
      {| connect_fd := 7; send_error := None;
         auth_error := Some {| errmsg := "password authentication failed";
                               errdetail := detail_text "no password supplied" |} |}
      1 (lit "localhost") 5432 app bob (lit "wrong") false
    = Some (t, Raised {| errmsg := "password authentication failed";
                         errdetail := detail_text "no password supplied" |})
    /\ wire t <> [].
Proof.
  destruct (make_persistent_db_connection
              {| connect_fd := 7; send_error := None;
                 auth_error := Some {| errmsg := "password authentication failed";
                                       errdetail := detail_text "no password supplied" |} |}
              1 (lit "localhost") 5432 app bob (lit "wrong") false)
    as [[t [e|cp]]|] eqn:E;
    [ | vm_compute in E; discriminate | vm_compute in E; discriminate].
  destruct (raised_error_provenance _ _ _ _ _ _ _ _ _ _ E)
    as [(H & _)|[(_ & H & _)|(_ & _ & [H|(_ & H)] & W)]];
    try (vm_compute in H; discriminate).
  - exfalso. vm_compute in H. apply H. reflexivity.
  - injection H as <-. exists t. split; [reflexivity | exact W].
Defined.

Lemma opener_events_map (t : list Opener.event) :
  opener_events (map opener t) = t.
Proof. induction t as [|e t IH]; [reflexivity|]. simpl. rewrite IH. reflexivity. Qed.

Lemma opener_events_app (t1 t2 : list event) :
  opener_events (t1 ++ t2) = opener_events t1 ++ opener_events t2.
Proof.
  induction t1 as [|e t1 IH]; [reflexivity|].
  destruct e; simpl; rewrite IH; reflexivity.
Qed.

Lemma reports_map (t : list Opener.event) : reports (map opener t) = [].
Proof. induction t as [|e t IH]; [reflexivity | exact IH]. Qed.

Lemma reports_app (t1 t2 : list event) :
  reports (t1 ++ t2) = reports t1 ++ reports t2.
Proof.
  induction t1 as [|e t1 IH]; [reflexivity|].
  destruct e; simpl; rewrite IH; reflexivity.
Qed.

(** X5.  [make_persistent_db_connection_noerror] raises nothing: it returns
    the slot of [make_persistent_db_connection] after the same calls and
    without a report, or NULL when that function raises an error, and then
    it has emitted that error once, every block is freed and the transport
    is closed. *)
Theorem noerror_catches_every_error :
  forall peer node_id hostname port dbname user password retry,
    exists t r,
      make_persistent_db_connection_noerror peer node_id hostname port dbname
                                            user password retry = Some (t, r)
      /\ match r with
         | Some slot =>
             make_persistent_db_connection peer node_id hostname port dbname
                                           user password retry
             = Some (opener_events t, Returned slot)
             /\ reports t = []
         | None =>
             exists e,
               make_persistent_db_connection peer node_id hostname port dbname
                                             user password retry
               = Some (opener_events t, Raised e)
               /\ reports t = [e]
               /\ live (opener_events t) [] = []
               /\ transport_open (opener_events t) false = false
         end.
Proof.
  intros peer node_id hostname port dbname user password retry.
  unfold make_persistent_db_connection_noerror.
  destruct (make_persistent_db_connection peer node_id hostname port dbname user
              password retry) as [[t [e|cp]]|] eqn:E.
  - eexists; eexists. split; [reflexivity|]. exists e.
    rewrite opener_events_app, opener_events_map, reports_app, reports_map.
    cbn [opener_events reports app]. rewrite app_nil_r.
    split; [reflexivity|]. split; [reflexivity|].
    revert E.
    connection_cases peer node_id hostname port dbname user password retry;
      intros [= <- <-]; by_host hostname; split; reflexivity.
  - eexists; eexists. split; [reflexivity|].
    rewrite opener_events_map, reports_map. split; reflexivity.
  - exfalso. exact (make_persistent_db_connection_defined _ _ _ _ _ _ _ _ E).
Qed.


Lemma flushes_nonblocking_map (t : list Opener.event) (rest : list event) (nb : bool) :
  flushes_nonblocking (map opener t ++ rest) nb = flushes_nonblocking rest nb.
Proof. induction t as [|e t IH]; [reflexivity | exact IH]. Qed.

(** X6.  A slot made by [make_persistent_db_connection] holds five blocks;
    [discard_persistent_db_connection] on it frees them all, closes the
    transport, adds the five bytes 'X' 0 0 0 4 to what was written, and
    flushes only while the socket does not block.  On NULL it does
    nothing. *)
Theorem discard_after_make_releases_everything :
  forall peer node_id hostname port dbname user password retry t cp,
    make_persistent_db_connection peer node_id hostname port dbname user
                                  password retry = Some (t, Returned cp) ->
    let whole := map opener t ++ discard_persistent_db_connection (Some cp) in
    live t [] = [blk_user; blk_database; blk_sp; blk_startup_packet; blk_cp]
    /\ live (opener_events whole) [] = []
    /\ transport_open (opener_events whole) false = false
    /\ wire (opener_events whole)
       = wire t ++ ["X"%char; "000"%char; "000"%char; "000"%char; "004"%char]
    /\ flushes_nonblocking whole false = true
    /\ discard_persistent_db_connection None = [].
Proof.
  intros peer node_id hostname port dbname user password retry t cp H whole.
  unfold whole. rewrite flushes_nonblocking_map, opener_events_app, opener_events_map.
  revert H.
  connection_cases peer node_id hostname port dbname user password retry;
    intros [= <- <-].
  by_host hostname; cbn; rewrite ?app_nil_r, <- ?app_assoc; repeat split.
Qed.

Lemma discard_after_make_releases_everything_witness :
  exists t cp,
    make_persistent_db_connection friendly_peer 1 (lit "localhost") 5432 app bob
                                  (lit "secret") false = Some (t, Returned cp)
    /\ live (opener_events
               (map opener t ++ discard_persistent_db_connection (Some cp))) []
       = [].
Proof.
  destruct (make_persistent_db_connection friendly_peer 1 (lit "localhost") 5432
              app bob (lit "secret") false) as [[t [e|cp]]|] eqn:E;
    [vm_compute in E; discriminate | | vm_compute in E; discriminate].
  exists t, cp. split; [reflexivity|].
  destruct (discard_after_make_releases_everything _ _ _ _ _ _ _ _ _ _ E)
    as (_ & L & _).
  exact L.
Defined.

(** X7.  [free_persisten_db_connection_memory] frees no block twice, frees
    the slot itself last, frees what [pool_free_startup_packet] frees and
    then the slot, and does nothing on NULL, as [pool_free_startup_packet]
    does. *)
Theorem free_memory_frees_once :
  forall cp,
    NoDup (freed (free_persisten_db_connection_memory_of cp))
    /\ (cp <> None ->
        exists before,
          free_persisten_db_connection_memory_of cp = before ++ [pfree blk_cp]
          /\ ~ In (pfree blk_cp) before)
    /\ (forall f,
          cp = Some (Some f) ->
          free_persisten_db_connection_memory_of cp
          = pool_free_startup_packet (Some f) ++ [pfree blk_cp])
    /\ (cp = None -> free_persisten_db_connection_memory_of cp = [])
    /\ pool_free_startup_packet None = [].
Proof.
  intro cp. split; [|split; [|split; [|split]]].
  - destruct cp as [[[[|] [|] [|]]|]|]; cbn;
      repeat constructor; cbn; intuition discriminate.
  - intro Hne. destruct cp as [[f|]|]; [ | | contradiction].
    + exists (pool_free_startup_packet (Some f)). split.
      * cbn. rewrite <- !app_assoc. reflexivity.
      * destruct f as [[|] [|] [|]]; cbn; intuition discriminate.
    + exists []. split; [reflexivity | cbn; tauto].
  - intros f ->. cbn. rewrite <- !app_assoc. reflexivity.
  - intros ->. reflexivity.
  - reflexivity.
Qed.

Lemma free_memory_frees_once_witness :
  exists before,
    free_persisten_db_connection_memory_of
      (Some (Some {| startup_packet_set := true; database_set := false;
                     user_set := true |}))
    = before ++ [pfree blk_cp]
    /\ before = [pfree blk_startup_packet; pfree blk_user; pfree blk_sp].
Proof.
  destruct (free_memory_frees_once
              (Some (Some {| startup_packet_set := true; database_set := false;
                             user_set := true |})))
    as (_ & _ & H & _).
  exists [pfree blk_startup_packet; pfree blk_user; pfree blk_sp].
  split; [|reflexivity].
  rewrite (H _ eq_refl). reflexivity.
Defined.

End Connection.

(** ** More on the choice of the load balancing node *)

Section Choice.

Import NodeToken Selector Measures Examples MoreExamples.

Lemma suggest_ok (cl : Cluster) (tmp prev : Z) :
  suggestion_ok cl prev -> suggestion_ok cl (suggest cl tmp prev).
Proof.
  intro H. unfold suggest.
  destruct (Z.eqb_spec tmp (-1)) as [->|_]; simpl; [right; left; reflexivity|].
  destruct (Z.geb_spec tmp 0) as [G|_]; simpl; [|exact H].
  destruct (VALID_BACKEND cl tmp) eqn:V; [|exact H].
  right. right. split; [lia | exact V].
Qed.

Lemma check_db_ok (cl : Cluster) (cfg : POOL_CONFIG) (ses : Session) (st : Rules) :
  check_db cl cfg ses = Some st -> suggestion_ok cl (suggested_node_id st).
Proof.
  unfold check_db.
  destruct (SL_MODE cl); [|intros [= <-]; left; reflexivity].
  destruct (redirect_dbnames cfg) as [ar|]; [|intros [= <-]; left; reflexivity].
  destruct (regex_array_match ar (database ses) >=? 0);
    [|intros [= <-]; left; reflexivity].
  destruct (token_at _ _) as [tk|]; [|discriminate].
  intros [= <-]. apply suggest_ok. left. reflexivity.
Qed.

Lemma check_app_ok (cl : Cluster) (cfg : POOL_CONFIG) (ses : Session)
    (st0 st : Rules) :
  suggestion_ok cl (suggested_node_id st0) ->
  check_app cl cfg ses st0 = Some st -> suggestion_ok cl (suggested_node_id st).
Proof.
  intro H0. unfold check_app.
  destruct (SL_MODE cl); [|intros [= <-]; exact H0].
  destruct (redirect_app_names cfg) as [ar|]; [|intros [= <-]; exact H0].
  destruct (application_name ses) as [a|]; [|intros [= <-]; exact H0].
  destruct (strlen a >? 0); [|intros [= <-]; exact H0].
  destruct (regex_array_match ar a >=? 0); [|intros [= <-]; exact H0].
  destruct (token_at _ _) as [tk|]; [|discriminate].
  intros [= <-]. apply suggest_ok. exact H0.
Qed.

(** X9.  What [select_load_balancing_node] returns: at line 393 a backend
    that is not negative and has [VALID_BACKEND]; at line 409
    [PRIMARY_NODE_ID]; at line 457 [MASTER_NODE_ID] or a backend below
    [NUM_BACKENDS] with [VALID_BACKEND_RAW] and a positive weight. *)
Theorem selected_node_is_usable :
  forall cl cfg ses rnd1 rnd2 how id,
    select_load_balancing_node_at cl cfg ses rnd1 rnd2 = Some (how, id) ->
    match how with
    | direct_hit => 0 <= id /\ VALID_BACKEND cl id = true
    | to_primary => id = PRIMARY_NODE_ID cl
    | weighted =>
        id = MASTER_NODE_ID cl
        \/ (0 <= id < NUM_BACKENDS cl
            /\ VALID_BACKEND_RAW cl id = true
            /\ PrimFloat.ltb PrimFloat.zero (backend_weight cl id) = true)
    end.
Proof.
  intros cl cfg ses rnd1 rnd2 how id.
  unfold select_load_balancing_node_at.
  destruct (check_db cl cfg ses) as [st0|] eqn:Hdb; [|discriminate].
  destruct (check_app cl cfg ses st0) as [st|] eqn:Happ; [|discriminate].
  pose proof (check_app_ok _ _ _ _ _ (check_db_ok _ _ _ _ Hdb) Happ) as Hok.
  assert (W : forall forbidden,
             weighted_choice cl (suggested_node_id st) forbidden rnd2
             = MASTER_NODE_ID cl
             \/ (0 <= weighted_choice cl (suggested_node_id st) forbidden rnd2
                      < NUM_BACKENDS cl
                 /\ VALID_BACKEND_RAW cl
                      (weighted_choice cl (suggested_node_id st) forbidden rnd2) = true
                 /\ PrimFloat.ltb PrimFloat.zero
                      (backend_weight cl
                         (weighted_choice cl (suggested_node_id st) forbidden rnd2))
                    = true)).
  { intro forbidden.
    destruct (weighted_choice_cases cl (suggested_node_id st) forbidden rnd2)
      as [E|(Hin & S)]; [left; exact E | right].
    apply selectable_spec in S. apply backend_ids_range in Hin. tauto. }
  assert (After : forall forbidden,
             (if suggested_node_id st =? -1
              then match beyond_weight cfg st rnd1 with
                   | Some true => Some (to_primary, PRIMARY_NODE_ID cl)
                   | Some false =>
                       Some (weighted,
                             weighted_choice cl (suggested_node_id st) forbidden rnd2)
                   | None => None
                   end
              else Some (weighted,
                         weighted_choice cl (suggested_node_id st) forbidden rnd2))
             = Some (how, id) ->
             match how with
             | direct_hit => 0 <= id /\ VALID_BACKEND cl id = true
             | to_primary => id = PRIMARY_NODE_ID cl
             | weighted =>
                 id = MASTER_NODE_ID cl
                 \/ (0 <= id < NUM_BACKENDS cl
                     /\ VALID_BACKEND_RAW cl id = true
                     /\ PrimFloat.ltb PrimFloat.zero (backend_weight cl id) = true)
             end).
  { intro forbidden.
    destruct (suggested_node_id st =? -1);
      [destruct (beyond_weight cfg st rnd1) as [[|]|]|];
      intros [= <- <-]; try reflexivity; apply W. }
  destruct (Z.geb_spec (suggested_node_id st) 0) as [G|G]; [|apply After].
  destruct (within_weight cfg st rnd1) as [[|]|]; [ | apply After | discriminate].
  intros [= <- <-]. destruct Hok as [E|[E|Hv]]; [lia | lia | exact Hv].
Qed.


Lemma selected_node_is_usable_witness :
  select_load_balancing_node_at three_nodes cfg_app_to_2_never app_session
                                0.5%float 0.75%float = Some (weighted, 0)
  /\ VALID_BACKEND_RAW three_nodes 0 = true.
Proof.
  assert (E : select_load_balancing_node_at three_nodes cfg_app_to_2_never
                app_session 0.5%float 0.75%float = Some (weighted, 0))
    by (vm_compute; reflexivity).
  split; [exact E|].
  destruct (selected_node_is_usable _ _ _ _ _ _ _ E) as [H|(_ & H & _)];
    [reflexivity | exact H].
Defined.

(** X8.  Outside of streaming replication mode, or with neither preference
    list configured, [select_load_balancing_node] is the weighted choice
    over all backends: the first random value, the database and the
    application name play no part. *)
Theorem without_rules_the_choice_is_weighted :
  forall cl cfg ses rnd1 rnd2,
    SL_MODE cl = false
    \/ (redirect_dbnames cfg = None /\ redirect_app_names cfg = None) ->
    select_load_balancing_node_at cl cfg ses rnd1 rnd2
    = Some (weighted, weighted_choice cl (-2) (-2) rnd2).
Proof.
  intros cl cfg ses rnd1 rnd2 H.
  unfold select_load_balancing_node_at, check_db, check_app.
  destruct H as [->|(-> & ->)]; [reflexivity|].
  destruct (SL_MODE cl); reflexivity.
Qed.

Lemma without_rules_the_choice_is_weighted_witness :
  select_load_balancing_node_at
    three_nodes
    {| redirect_dbnames := None; db_redirect_tokens := [];
       redirect_app_names := None; app_name_redirect_tokens := [] |}
    app_session 0.5%float 0.75%float
  = Some (weighted, 2).
Proof.
  rewrite without_rules_the_choice_is_weighted by (right; split; reflexivity).
  vm_compute. reflexivity.
Defined.

(** X10.  When the active rule asks for any standby
    ([suggested_node_id == -1]), the first random value decides: above the
    weight of the rule the primary is returned, and otherwise the weighted
    choice among the backends other than the primary. *)
Theorem standby_rule_decided_by_weight :
  forall cl cfg ses rnd1 rnd2 st0 st,
    check_db cl cfg ses = Some st0 ->
    check_app cl cfg ses st0 = Some st ->
    suggested_node_id st = -1 ->
    exists w,
      spec_active_weight cfg st = Some w
      /\ (PrimFloat.ltb w rnd1 = true ->
          select_load_balancing_node_at cl cfg ses rnd1 rnd2
          = Some (to_primary, PRIMARY_NODE_ID cl))
      /\ (PrimFloat.ltb w rnd1 = false ->
          select_load_balancing_node_at cl cfg ses rnd1 rnd2
          = Some (weighted, weighted_choice cl (-1) (-2) rnd2)).
Proof.
  intros cl cfg ses rnd1 rnd2 st0 st Hdb Happ Hs.
  destruct (within_weight_active cl cfg ses st0 st rnd1 Hdb Happ ltac:(lia))
    as (w & Hw & _ & Hb).
  exists w. split; [exact Hw|].
  unfold select_load_balancing_node_at. rewrite Hdb, Happ, Hs, Hb. simpl.
  split; intros ->; reflexivity.
Qed.

Lemma standby_rule_decided_by_weight_witness :
  select_load_balancing_node_at three_nodes
    {| redirect_dbnames := Some {| regex := [re_app] |};
       db_redirect_tokens :=
         [{| right_token := lit "standby"; weight_token := 0.25%float |}];
       redirect_app_names := None;
       app_name_redirect_tokens := [] |}
    app_session 0.5%float 0.75%float
  = Some (to_primary, 0).
Proof.
  destruct (standby_rule_decided_by_weight
              three_nodes
              {| redirect_dbnames := Some {| regex := [re_app] |};
                 db_redirect_tokens :=
                   [{| right_token := lit "standby"; weight_token := 0.25%float |}];
                 redirect_app_names := None;
                 app_name_redirect_tokens := [] |}
              app_session 0.5%float 0.75%float
              {| index_db := 0; index_app := -1; suggested_node_id := -1 |}
              {| index_db := 0; index_app := -1; suggested_node_id := -1 |})
    as (w & Hw & Hp & _).
  - vm_compute. reflexivity.
  - vm_compute. reflexivity.
  - reflexivity.
  - apply Hp. injection Hw as <-. vm_compute. reflexivity.
Defined.

(** X11.  A matching application name rule replaces the database rule:
    [index_db] is reset and its weight is the one that counts.  If its
    target is a usable node or "standby", that is the suggestion; if its
    target is not a valid backend, the node that the database rule
    suggested stays, and it is returned when the random value is within the
    weight of the application name rule. *)
Theorem app_rule_supersedes_db_rule :
  forall cl cfg ses rnd1 rnd2 st0 ar app_name idx tk,
    SL_MODE cl = true ->
    check_db cl cfg ses = Some st0 ->
    redirect_app_names cfg = Some ar ->
    application_name ses = Some app_name ->
    0 < strlen app_name ->
    regex_array_match ar app_name = idx ->
    0 <= idx ->
    token_at (app_name_redirect_tokens cfg) idx = Some tk ->
    let tmp := choose_db_node_id cl (right_token tk) in
    let st := {| index_db := -1; index_app := idx;
                 suggested_node_id := suggest cl tmp (suggested_node_id st0) |} in
    check_app cl cfg ses st0 = Some st
    /\ spec_active_weight cfg st = Some (weight_token tk)
    /\ (tmp = -1 \/ (0 <= tmp /\ VALID_BACKEND cl tmp = true) ->
        suggested_node_id st = tmp)
    /\ (tmp <> -1 -> VALID_BACKEND cl tmp = false ->
        suggested_node_id st = suggested_node_id st0
        /\ (0 <= suggested_node_id st0 ->
            PrimFloat.leb rnd1 (weight_token tk) = true ->
            select_load_balancing_node_at cl cfg ses rnd1 rnd2
            = Some (direct_hit, suggested_node_id st0))).
Proof.
  intros cl cfg ses rnd1 rnd2 st0 ar app_name idx tk
         Hsl Hdb Har Happn Hlen Hidx Hpos Htk tmp st.
  assert (Happ : check_app cl cfg ses st0 = Some st).
  { unfold check_app. rewrite Hsl, Har, Happn, Hidx, Htk.
    destruct (Z.gtb_spec (strlen app_name) 0) as [_|]; [|lia].
    destruct (Z.geb_spec idx 0) as [_|]; [|lia]. reflexivity. }
  assert (Hw : spec_active_weight cfg st = Some (weight_token tk)).
  { unfold spec_active_weight. cbn [index_app st].
    destruct (Z.geb_spec idx 0) as [_|]; [|lia]. rewrite Htk. reflexivity. }
  split; [exact Happ|]. split; [exact Hw|]. split.
  - intros [E|(G & V)]; cbn [suggested_node_id st]; unfold suggest.
    + rewrite E. reflexivity.
    + rewrite V. destruct (Z.geb_spec tmp 0) as [_|]; [|lia].
      rewrite orb_true_r. reflexivity.
  - intros Hne Hinv.
    assert (Hkeep : suggested_node_id st = suggested_node_id st0).
    { cbn [suggested_node_id st]. unfold suggest. rewrite Hinv.
      destruct (Z.eqb_spec tmp (-1)) as [|_]; [contradiction|].
      rewrite andb_false_r. reflexivity. }
    split; [exact Hkeep|]. intros Hs Hr.
    destruct (within_weight_active cl cfg ses st0 st rnd1 Hdb Happ
                ltac:(rewrite Hkeep; lia)) as (w & Hw' & Hin & _).
    rewrite Hw in Hw'. injection Hw' as <-.
    unfold select_load_balancing_node_at. rewrite Hdb, Happ, Hin, Hr, Hkeep.
    destruct (Z.geb_spec (suggested_node_id st0) 0) as [_|]; [reflexivity | lia].
Qed.

Lemma app_rule_supersedes_db_rule_witness :
  select_load_balancing_node_at node_1_unusable cfg_db_and_app psql_session
                                0.5%float 0.75%float = Some (direct_hit, 2)
  /\ select_load_balancing_node_at node_1_unusable cfg_db_and_app app_session
                                   0.5%float 0.75%float = Some (weighted, 1).
Proof.
  split; [|vm_compute; reflexivity].
  pose proof (app_rule_supersedes_db_rule
                node_1_unusable cfg_db_and_app psql_session 0.5%float 0.75%float
                {| index_db := 0; index_app := -1; suggested_node_id := 2 |}
                {| regex := [re_psql] |} (lit "psql") 0
                {| right_token := lit "1"; weight_token := 1%float |}
                eq_refl eq_refl eq_refl eq_refl
                ltac:(vm_compute; reflexivity) eq_refl ltac:(lia) eq_refl)
    as (_ & _ & _ & H).
  destruct (H ltac:(vm_compute; discriminate) eq_refl) as (_ & H2).
  apply H2; [vm_compute; discriminate | vm_compute; reflexivity].
Defined.


(** Adding a positive weight to the running sum 0 gives that weight. *)
Lemma add_zero_positive (w : float) :
  PrimFloat.ltb PrimFloat.zero w = true -> PrimFloat.add PrimFloat.zero w = w.
Proof.
  intro H. apply Prim2SF_inj. rewrite add_spec.
  rewrite ltb_spec in H. unfold SFltb in H.
  change (Prim2SF PrimFloat.zero) with (S754_zero false) in *.
  destruct (Prim2SF w) as [[|]|[|]| |[|] m e]; simpl in *;
    try discriminate; reflexivity.
Qed.

(** X12.  When exactly one backend can be selected by the second loop, the
    weighted choice returns it, whatever the (not negative) draw. *)
Theorem only_candidate_is_chosen :
  forall cl suggested forbidden rnd i,
    In i (backend_ids cl) ->
    selectable cl suggested forbidden i = true ->
    (forall j, In j (backend_ids cl) ->
               selectable cl suggested forbidden j = true -> j = i) ->
    PrimFloat.leb PrimFloat.zero
      (PrimFloat.mul rnd (total_weight cl suggested forbidden)) = true ->
    weighted_choice cl suggested forbidden rnd = i.
Proof.
  intros cl suggested forbidden rnd i Hi Si Huniq Hr.
  destruct (weighted_choice_selects cl suggested forbidden rnd) as (Hin & S).
  - exists i. split; assumption.
  - exact Hr.
  - apply Huniq; assumption.
Qed.

Lemma only_candidate_is_chosen_witness :
  weighted_choice three_nodes 2 2 0.75%float = 0.
Proof.
  apply only_candidate_is_chosen.
  - simpl. tauto.
  - vm_compute. reflexivity.
  - intros j [<-|[<-|[<-|[]]]] H; [reflexivity | | ];
      vm_compute in H; discriminate.
  - vm_compute. reflexivity.
Defined.

Lemma ascending_head_not_in_tail (c : Z) (l : list Z) :
  StronglySorted Z.lt (c :: l) -> ~ In c l.
Proof.
  intros H Hin. inversion H as [|? ? _ Hall]; subst.
  rewrite Forall_forall in Hall. specialize (Hall c Hin). lia.
Qed.

(** X13.  With at least two backends that can be selected, the first of
    them in ascending order is the one chosen exactly when the draw does not
    reach its weight. *)
Theorem first_candidate_iff_draw_below_its_weight :
  forall cl suggested forbidden rnd c0 c1 rest,
    filter (selectable cl suggested forbidden) (backend_ids cl) = c0 :: c1 :: rest ->
    let r := PrimFloat.mul rnd (total_weight cl suggested forbidden) in
    PrimFloat.leb PrimFloat.zero r = true ->
    (weighted_choice cl suggested forbidden rnd = c0
     <-> PrimFloat.leb (backend_weight cl c0) r = false).
Proof.
  intros cl suggested forbidden rnd c0 c1 rest Hf r Hr.
  assert (Hs : selectable cl suggested forbidden c0 = true).
  { assert (Hin : In c0 (filter (selectable cl suggested forbidden) (backend_ids cl)))
      by (rewrite Hf; left; reflexivity).
    apply filter_In in Hin. tauto. }
  apply selectable_spec in Hs. destruct Hs as (_ & _ & _ & Hpos).
  assert (Hsorted : StronglySorted Z.lt (c0 :: c1 :: rest)).
  { rewrite <- Hf. apply filter_ascending. apply backend_ids_from. }
  rewrite weighted_choice_chosen, Hf. fold r.
  unfold spec_chosen. cbn [running_sums take_while snd]. rewrite Hr.
  rewrite (add_zero_positive _ Hpos).
  destruct (PrimFloat.leb (backend_weight cl c0) r) eqn:E.
  - split; [|discriminate]. intro Hc. exfalso.
    apply (ascending_head_not_in_tail c0 (c1 :: rest) Hsorted).
    set (l := take_while _ _) in Hc.
    cbn [map fst] in Hc.
    change (last (c0 :: c1 :: map fst l) (MASTER_NODE_ID cl))
      with (last (c1 :: map fst l) (MASTER_NODE_ID cl)) in Hc.
    destruct (exists_last (l := c1 :: map fst l)) as (l0 & a & Ea); [discriminate|].
    rewrite Ea, last_last in Hc. rewrite Hc in Ea.
    assert (Hin : In c0 (c1 :: map fst l))
      by (rewrite Ea; apply in_or_app; right; left; reflexivity).
    destruct Hin as [->|Hin]; [left; reflexivity|].
    right. apply in_map_iff in Hin. destruct Hin as (x & Ex & Hx).
    apply take_while_incl in Hx.
    rewrite <- (running_sums_fst cl rest
                  (PrimFloat.add (backend_weight cl c0) (backend_weight cl c1))).
    apply in_map_iff. exists x. tauto.
  - split; [reflexivity|]. intros _. reflexivity.
Qed.

Lemma first_candidate_iff_draw_below_its_weight_witness :
  weighted_choice three_nodes (-2) (-2) 0.25%float = 0
  /\ weighted_choice three_nodes (-2) (-2) 0.5%float <> 0.
Proof.
  assert (Hf : filter (selectable three_nodes (-2) (-2)) (backend_ids three_nodes)
               = [0; 2]) by (vm_compute; reflexivity).
  split.
  - apply (first_candidate_iff_draw_below_its_weight
             three_nodes (-2) (-2) 0.25%float 0 2 [] Hf);
      vm_compute; reflexivity.
  - intro H.
    apply (first_candidate_iff_draw_below_its_weight
             three_nodes (-2) (-2) 0.5%float 0 2 [] Hf) in H;
      [vm_compute in H; discriminate | vm_compute; reflexivity].
Defined.

End Choice.

(** ** More on the tokens of the preference lists *)

Section Tokens.

Import NodeToken Examples.

(** X14.  [choose_db_node_id] returns -1, the primary (when there is one),
    [MASTER_NODE_ID] or a number from 0 below [NUM_BACKENDS]; when
    [MASTER_NODE_ID] is not negative, it returns -1 for the token "standby"
    and for no other. *)
Theorem choose_db_node_id_range :
  forall cl str,
    let id := choose_db_node_id cl str in
    (id = -1
     \/ (id = PRIMARY_NODE_ID cl /\ 0 <= PRIMARY_NODE_ID cl)
     \/ id = MASTER_NODE_ID cl
     \/ 0 <= id < NUM_BACKENDS cl)
    /\ (0 <= MASTER_NODE_ID cl -> (id = -1 <-> c_str str = lit "standby")).
Proof.
  intros cl str id. unfold id, choose_db_node_id.
  destruct (Z.eqb_spec (strcmp (lit "primary") str) 0) as [Ep|Ep];
    destruct (Z.geb_spec (PRIMARY_NODE_ID cl) 0) as [Gp|Gp]; cbn [andb].
  - split; [right; left; split; [reflexivity | lia]|].
    intros _. apply strcmp_eq in Ep. split; [lia|].
    intro E. rewrite E in Ep. vm_compute in Ep. discriminate.
  - apply strcmp_eq in Ep.
    destruct (Z.eqb_spec (strcmp (lit "standby") str) 0) as [Es|Es].
    { apply strcmp_eq in Es. rewrite <- Es in Ep. vm_compute in Ep. discriminate. }
    destruct (Z.geb_spec (atoi str) 0) as [G|G];
      destruct (Z.ltb_spec (atoi str) (NUM_BACKENDS cl)) as [L|L]; cbn [andb];
      (split; [auto with zarith|]); intro HM;
      (split; [lia|]); intro E; rewrite E in Ep; vm_compute in Ep; discriminate.
  - destruct (Z.eqb_spec (strcmp (lit "standby") str) 0) as [Es|Es].
    { apply strcmp_eq in Es. split; [left; reflexivity|]. intros _.
      split; [intros _; symmetry; exact Es | reflexivity]. }
    assert (Hn : c_str str <> lit "standby").
    { intro E. apply Es. apply strcmp_eq. symmetry. exact E. }
    destruct (Z.geb_spec (atoi str) 0) as [G|G];
      destruct (Z.ltb_spec (atoi str) (NUM_BACKENDS cl)) as [L|L]; cbn [andb];
      (split; [auto with zarith|]); intro HM;
      (split; [lia | contradiction]).
  - destruct (Z.eqb_spec (strcmp (lit "standby") str) 0) as [Es|Es].
    { apply strcmp_eq in Es. split; [left; reflexivity|]. intros _.
      split; [intros _; symmetry; exact Es | reflexivity]. }
    assert (Hn : c_str str <> lit "standby").
    { intro E. apply Es. apply strcmp_eq. symmetry. exact E. }
    destruct (Z.geb_spec (atoi str) 0) as [G|G];
      destruct (Z.ltb_spec (atoi str) (NUM_BACKENDS cl)) as [L|L]; cbn [andb];
      (split; [auto with zarith|]); intro HM;
      (split; [lia | contradiction]).
Qed.


Lemma choose_db_node_id_range_witness :
  choose_db_node_id three_nodes (lit "7") = MASTER_NODE_ID three_nodes
  /\ (choose_db_node_id three_nodes (lit "standby") = -1
      <-> c_str (lit "standby") = lit "standby").
Proof.
  split; [reflexivity|].
  destruct (choose_db_node_id_range three_nodes (lit "standby")) as (_ & H).
  apply H. vm_compute. discriminate.
Defined.

(** X15.  A token that does not start with white space, a sign or a digit
    (a word), other than "standby" and than "primary" with a primary, is
    read as 0 by [atoi]: in a cluster with a backend [choose_db_node_id]
    returns node 0 for it, not [MASTER_NODE_ID]. *)
Theorem word_token_names_node_0 :
  forall cl c rest,
    isspace c = false ->
    digit_val c = None ->
    code c <> 45 -> code c <> 43 ->
    c_str (c :: rest) <> lit "standby" ->
    c_str (c :: rest) <> lit "primary" \/ PRIMARY_NODE_ID cl < 0 ->
    0 < NUM_BACKENDS cl ->
    atoi (c :: rest) = 0 /\ choose_db_node_id cl (c :: rest) = 0.
Proof.
  intros cl c rest Hsp Hd Hm Hp Hs Hpr Hn.
  assert (Ha : atoi (c :: rest) = 0).
  { unfold atoi, strtol10. cbn [skip_spaces]. rewrite Hsp.
    destruct (Z.eqb_spec (code c) 45) as [|_]; [contradiction|].
    destruct (Z.eqb_spec (code c) 43) as [|_]; [contradiction|].
    cbn [digits]. rewrite Hd. reflexivity. }
  split; [exact Ha|].
  unfold choose_db_node_id. rewrite Ha.
  destruct (Z.eqb_spec (strcmp (lit "standby") (c :: rest)) 0) as [Es|_].
  { apply strcmp_eq in Es. symmetry in Es. contradiction. }
  assert (T : (strcmp (lit "primary") (c :: rest) =? 0)
              && (PRIMARY_NODE_ID cl >=? 0) = false).
  { destruct Hpr as [Hpr|Hpr].
    - destruct (Z.eqb_spec (strcmp (lit "primary") (c :: rest)) 0) as [Ep|_];
        [|reflexivity].
      apply strcmp_eq in Ep. symmetry in Ep. contradiction.
    - destruct (Z.geb_spec (PRIMARY_NODE_ID cl) 0); [lia | apply andb_false_r]. }
  rewrite T. cbn [Z.geb Z.compare andb].
  destruct (Z.ltb_spec 0 (NUM_BACKENDS cl)); [reflexivity | lia].
Qed.

Lemma word_token_names_node_0_witness :
  atoi (lit "replica") = 0
  /\ choose_db_node_id no_primary_node0_down (lit "replica") = 0
  /\ MASTER_NODE_ID no_primary_node0_down = 1.
Proof.
  destruct (word_token_names_node_0 no_primary_node0_down "r"%char (lit "eplica"))
    as (Ha & Hc); try (vm_compute; congruence).
  - left. vm_compute. discriminate.
  - split; [exact Ha|]. split; [exact Hc | reflexivity].
Defined.

End Tokens.

(** ** More on the version of the backend *)

Section Probe.

Import VersionProbe Measures Examples.

Lemma strchr_none (s : list ascii) (c : ascii) (p : nat) :
  strchr s c p = None <-> ~ In c s.
Proof.
  revert p. induction s as [|x s IH]; intro p; simpl; [tauto|].
  destruct (Z.eqb_spec (code x) (code c)) as [E|E].
  - split; [discriminate|]. intro H. exfalso. apply H. left.
    unfold code in E. apply Nat2Z.inj in E.
    rewrite <- (ascii_nat_embedding x), <- (ascii_nat_embedding c), E. reflexivity.
  - rewrite IH. split; [intros H [->|Hin]; [apply E; reflexivity | tauto] | tauto].
Qed.

(** X16.  With an empty cache, [Pgversion] is fatal when the relation cache
    cannot be created (after this one call and nothing else), when the cache
    has no row for the backend, and when the row holds no space; in the last
    two cases the cache was created if there was none and searched, and the
    cached version is untouched. *)
Theorem Pgversion_fatal_before_parsing :
  forall size relcache_size st b,
    major (pgversion st) = 0 ->
    (relcache st = false -> create_ok b = false ->
     Pgversion size relcache_size st b
     = Some (st, [pool_create_relcache relcache_size "SELECT version()"],
             Fatal unable_to_create_relcache))
    /\ (relcache st = true \/ create_ok b = true ->
        exists t,
          (version_row b = None ->
           Pgversion size relcache_size st b
           = Some ({| pgversion := pgversion st; relcache := true |}, t,
                   Fatal unable_to_search_relcache))
          /\ (forall row,
                version_row b = Some row -> ~ In " "%char (c_str row) ->
                Pgversion size relcache_size st b
                = Some ({| pgversion := pgversion st; relcache := true |}, t,
                        Fatal unable_to_find_the_first_space))
          /\ creates t = (if relcache st then 0 else 1)%nat
          /\ In (pool_search_relcache "version") t).
Proof.
  intros size relcache_size st b Hm. unfold Pgversion. rewrite Hm. cbn [Z.eqb negb].
  split.
  - intros -> ->. reflexivity.
  - intros Hrc.
    assert (Hc : negb (relcache st) && negb (create_ok b) = false).
    { destruct Hrc as [-> | ->]; [reflexivity | apply andb_false_r]. }
    rewrite Hc. eexists. split; [|split; [|split]].
    + intros ->. reflexivity.
    + intros row -> Hsp. unfold first_segment.
      apply (strchr_none _ _ 0%nat) in Hsp. rewrite Hsp. reflexivity.
    + destruct (relcache st); reflexivity.
    + apply in_or_app. right. left. reflexivity.
Qed.


Lemma Pgversion_fatal_before_parsing_witness :
  Pgversion 513 256 (initial 513) silent
  = Some (initial 513, [pool_create_relcache 256 "SELECT version()"],
          Fatal unable_to_create_relcache)
  /\ exists t,
      Pgversion 513 256 (initial 513) (answering (lit "PostgreSQL-12.3"))
      = Some ({| pgversion := pgversion (initial 513); relcache := true |}, t,
              Fatal unable_to_find_the_first_space).
Proof.
  destruct (Pgversion_fatal_before_parsing 513 256 (initial 513) silent eq_refl)
    as (H1 & _).
  split; [apply H1; reflexivity|].
  destruct (Pgversion_fatal_before_parsing 513 256 (initial 513)
              (answering (lit "PostgreSQL-12.3")) eq_refl) as (_ & H2).
  destruct (H2 (or_intror eq_refl)) as (t & _ & H & _).
  exists t. apply (H (lit "PostgreSQL-12.3")); [reflexivity|].
  vm_compute. intuition discriminate.
Defined.

Lemma deref_nth (s : list ascii) (p : nat) :
  deref s p = nth_error (s ++ [NUL]) p.
Proof.
  unfold deref.
  destruct (Nat.ltb_spec p (length s)) as [L|L].
  - symmetry. apply nth_error_app1. exact L.
  - destruct (Nat.eqb_spec p (length s)) as [->|N].
    + rewrite nth_error_app2, Nat.sub_diag by lia. reflexivity.
    + symmetry. apply nth_error_None. rewrite length_app. simpl. lia.
Qed.

(** What the copying loop leaves, for every start. *)
Lemma copy_until_loop (stop : ascii -> bool) (s : list ascii) (left : nat) :
  forall (p : nat) (buf buf' : list ascii) (p' : nat),
    copy_until stop s p left buf = Some (buf', p') ->
    exists copied,
      buf' = buf ++ copied
      /\ (length copied <= left)%nat
      /\ p' = (p + length copied)%nat
      /\ copied = firstn (length copied) (skipn p (s ++ [NUL]))
      /\ Forall (fun c => stop c = false) copied
      /\ (length copied = left
          \/ exists c, deref s p' = Some c /\ stop c = true).
Proof.
  induction left as [|left IH]; intros p buf buf' p' H; simpl in H.
  - injection H as <- <-. exists []. rewrite app_nil_r, Nat.add_0_r.
    repeat apply conj; try reflexivity; [constructor | left; reflexivity].
  - destruct (deref s p) as [c|] eqn:D; [|discriminate].
    destruct (stop c) eqn:Hst.
    + injection H as <- <-. exists []. rewrite app_nil_r, Nat.add_0_r.
      repeat apply conj; try reflexivity;
        [simpl; lia | constructor | right; exists c; tauto].
    + destruct (IH _ _ _ _ H) as (copied & E & L & P & F & A & T).
      exists (c :: copied). rewrite <- app_assoc in E.
      split; [exact E|]. split; [simpl; lia|]. split; [simpl; lia|].
      rewrite deref_nth in D.
      assert (Hs : skipn p (s ++ [NUL]) = c :: skipn (S p) (s ++ [NUL])).
      { clear - D. revert p D. induction (s ++ [NUL]) as [|x l IHl]; intros p D.
        - destruct p; discriminate.
        - destruct p as [|p]; simpl in *; [congruence | apply IHl; exact D]. }
      split; [rewrite Hs; simpl; f_equal; exact F|].
      split; [constructor; assumption|].
      destruct T as [T|T]; [left; simpl; lia | right].
      replace (p + length (c :: copied))%nat with p' by (simpl; lia). exact T.
Qed.

(** X20.  Each of the three copying loops of [Pgversion] stores at most nine
    characters in [buf], so that [buf[i] = 0] is inside [buf[10]]; what it
    stores are the characters of the string from [p] on, none of them a
    stop character, and it ends after nine characters or at a stop
    character. *)
Theorem version_buffer_is_not_overrun :
  forall stop s p buf p',
    copy_until stop s p (VERSION_BUF_SIZE - 1) [] = Some (buf, p') ->
    terminate_buf buf = Some (buf ++ [NUL])
    /\ (length buf <= 9)%nat
    /\ p' = (p + length buf)%nat
    /\ buf = firstn (length buf) (skipn p (s ++ [NUL]))
    /\ Forall (fun c => stop c = false) buf
    /\ (length buf = 9%nat \/ exists c, deref s p' = Some c /\ stop c = true).
Proof.
  intros stop s p buf p' H.
  destruct (copy_until_loop _ _ _ _ _ _ _ H) as (copied & E & L & P & F & A & T).
  simpl in E. subst copied. change (VERSION_BUF_SIZE - 1)%nat with 9%nat in *.
  split; [|tauto].
  unfold terminate_buf, VERSION_BUF_SIZE.
  destruct (Nat.ltb_spec (length buf) 10); [reflexivity | lia].
Qed.

Lemma version_buffer_is_not_overrun_witness :
  exists buf p',
    copy_until is_dot v12beta1 11 (VERSION_BUF_SIZE - 1) [] = Some (buf, p')
    /\ buf = lit "12beta1 o"
    /\ terminate_buf buf = Some (buf ++ [NUL]).
Proof.
  destruct (copy_until is_dot v12beta1 11 (VERSION_BUF_SIZE - 1) [])
    as [[buf p']|] eqn:E; [|vm_compute in E; discriminate].
  exists buf, p'. split; [reflexivity|].
  split; [vm_compute in E; injection E as <- _; reflexivity|].
  exact (proj1 (version_buffer_is_not_overrun _ _ _ _ _ E)).
Defined.


Lemma digit_val_range (c : ascii) (d : Z) : digit_val c = Some d -> 0 <= d <= 9.
Proof.
  unfold digit_val.
  destruct (Z.leb_spec 48 (code c)); destruct (Z.leb_spec (code c) 57);
    cbn [andb]; intros [= <-]; lia.
Qed.

Lemma digits_bound (s : list ascii) :
  forall acc, 0 <= acc -> 0 <= digits s acc < (acc + 1) * 10 ^ Z.of_nat (length s).
Proof.
  induction s as [|c s IH]; intros acc Hacc.
  - simpl. lia.
  - cbn [digits length]. rewrite Nat2Z.inj_succ, Z.pow_succ_r by lia.
    assert (Hp : 0 < 10 ^ Z.of_nat (length s)) by (apply Z.pow_pos_nonneg; lia).
    destruct (digit_val c) as [d|] eqn:D.
    + apply digit_val_range in D.
      specialize (IH (acc * 10 + d) ltac:(lia)). nia.
    + nia.
Qed.

Lemma digits_app_nul (a : list ascii) (acc : Z) :
  digits (a ++ [NUL]) acc = digits a acc.
Proof.
  revert acc. induction a as [|c a IH]; intro acc; [reflexivity|].
  simpl. destruct (digit_val c); [apply IH | reflexivity].
Qed.

Lemma skip_spaces_app_nul (a : list ascii) :
  skip_spaces (a ++ [NUL]) = skip_spaces a ++ [NUL].
Proof.
  induction a as [|c a IH]; [reflexivity|].
  simpl. destruct (isspace c); [exact IH | reflexivity].
Qed.

Lemma skip_spaces_length (a : list ascii) :
  (length (skip_spaces a) <= length a)%nat.
Proof.
  induction a as [|c a IH]; [simpl; lia|].
  cbn [skip_spaces]. destruct (isspace c); simpl in *; lia.
Qed.

(** [atoi] of a buffer of at most nine characters and its NUL has at most
    nine digits, and is the number read: nothing is clamped or wrapped. *)
Lemma atoi_of_buffer (buf : list ascii) :
  (length buf <= 9)%nat ->
  - 1000000000 < atoi (buf ++ [NUL]) < 1000000000.
Proof.
  intro L. unfold atoi, strtol10. rewrite skip_spaces_app_nul.
  pose proof (skip_spaces_length buf) as Ls.
  assert (P9 : forall a, (length a <= 9)%nat ->
                         0 <= digits a 0 < 1000000000).
  { intros a La. pose proof (digits_bound a 0 ltac:(lia)) as B.
    assert (10 ^ Z.of_nat (length a) <= 10 ^ 9)
      by (apply Z.pow_le_mono_r; lia).
    change (10 ^ 9) with 1000000000 in *. lia. }
  assert (V : - 1000000000
              < match skip_spaces buf ++ [NUL] with
                | [] => 0
                | c :: t =>
                    if code c =? 45 then - digits t 0
                    else if code c =? 43 then digits t 0
                    else digits (skip_spaces buf ++ [NUL]) 0
                end < 1000000000).
  { destruct (skip_spaces buf) as [|c t] eqn:E.
    - vm_compute. split; reflexivity.
    - rewrite <- app_comm_cons. cbv beta iota. simpl in Ls.
      pose proof (digits_app_nul t 0) as D1.
      pose proof (digits_app_nul (c :: t) 0 : digits (c :: t ++ [NUL]) 0 = _) as D2.
      rewrite D1, D2.
      pose proof (P9 t ltac:(lia)). pose proof (P9 (c :: t) ltac:(simpl; lia)).
      destruct (code c =? 45); [lia|]. destruct (code c =? 43); lia. }
  set (v := match skip_spaces buf ++ [NUL] with [] => 0 | _ => _ end) in *.
  unfold LONG_MAX, LONG_MIN, wrap_int.
  rewrite Z.min_r, Z.max_r by lia.
  rewrite Z.mod_small by lia. lia.
Qed.

Lemma next_segment_bound (s : list ascii) (p q : nat) (v : Z) :
  next_segment s p = Some (v, q) -> - 1000000000 < v < 1000000000.
Proof.
  unfold next_segment.
  destruct (copy_until is_dot_or_space s (S p) (VERSION_BUF_SIZE - 1) [])
    as [[buf q']|] eqn:C; [|discriminate].
  intros [= <- _]. apply atoi_of_buffer.
  destruct (copy_until_loop _ _ _ _ _ _ _ C) as (copied & E & L & _).
  simpl in E. subst copied. exact L.
Qed.

(** X17.  A record that [Pgversion] computes and returns has a first number
    from 6 to 100 and a minor from 0 to 100; its major is ten times the
    first number from 10 on, and below 10 it is exactly ten times the first
    number plus the second, which has at most nine digits: no conversion
    and no addition leaves the range of [int]. *)
Theorem Pgversion_record_invariants :
  forall size relcache_size st b st' t v,
    major (pgversion st) = 0 ->
    Pgversion size relcache_size st b = Some (st', t, Return v) ->
    exists row v1 p,
      version_row b = Some row
      /\ first_segment (c_str row) = Some (Some (v1, p))
      /\ 6 <= v1 <= 100
      /\ minor_segment (c_str row) = Some (minor v)
      /\ 0 <= minor v <= 100
      /\ (10 <= v1 -> major v = 10 * v1)
      /\ (v1 < 10 ->
          exists v2 q,
            next_segment (c_str row) p = Some (v2, q)
            /\ - 1000000000 < v2 < 1000000000
            /\ major v = 10 * v1 + v2).
Proof.
  intros size relcache_size st b st' t v Hm. unfold Pgversion.
  rewrite Hm. cbn [Z.eqb negb].
  destruct (negb (relcache st) && negb (create_ok b)); [discriminate|].
  destruct (version_row b) as [row|]; [|discriminate].
  destruct (first_segment (c_str row)) as [[[v1 p]|]|] eqn:F; try discriminate.
  destruct ((v1 <? 6) || (v1 >? 100)) eqn:R; [discriminate|].
  assert (Hv1 : 6 <= v1 <= 100).
  { apply orb_false_iff in R. destruct R as (R1 & R2).
    apply Z.ltb_ge in R1. rewrite Z.gtb_ltb in R2. apply Z.ltb_ge in R2. lia. }
  assert (Range : forall mn, (mn <? 0) || (mn >? 100) = false -> 0 <= mn <= 100).
  { intros mn H. apply orb_false_iff in H. destruct H as (R1 & R2).
    apply Z.ltb_ge in R1. rewrite Z.gtb_ltb in R2. apply Z.ltb_ge in R2. lia. }
  destruct (v1 >=? 10) eqn:G.
  - destruct (next_segment (c_str row) p) as [[mn q]|] eqn:N; [|discriminate].
    destruct ((mn <? 0) || (mn >? 100)) eqn:M; [discriminate|].
    intros [= _ _ <-]. exists row, v1, p. cbn [major minor].
    split; [reflexivity|]. split; [exact F|]. split; [exact Hv1|].
    split; [unfold minor_segment; rewrite F, R, G, N; reflexivity|].
    split; [exact (Range _ M)|]. rewrite Z.geb_leb in G. apply Z.leb_le in G.
    split; [intros _; lia | intro; lia].
  - destruct (next_segment (c_str row) p) as [[v2 q]|] eqn:N; [|discriminate].
    destruct (next_segment (c_str row) q) as [[mn q']|] eqn:N2; [|discriminate].
    destruct ((mn <? 0) || (mn >? 100)) eqn:M; [discriminate|].
    intros [= _ _ <-]. exists row, v1, p. cbn [major minor].
    pose proof (next_segment_bound _ _ _ _ N) as B.
    split; [reflexivity|]. split; [exact F|]. split; [exact Hv1|].
    split; [unfold minor_segment; rewrite F, R, G, N, N2; reflexivity|].
    split; [exact (Range _ M)|]. rewrite Z.geb_leb in G. apply Z.leb_gt in G.
    split; [intro; lia|].
    intros _. exists v2, q. split; [exact N|]. split; [exact B|].
    unfold wrap_int. rewrite (Z.mod_small (v1 * 10 + 2147483648)) by lia.
    rewrite Z.mod_small by lia. lia.
Qed.

Lemma Pgversion_record_invariants_witness :
  exists st' t v,
    Pgversion 513 256 (initial 513) (answering v9_6_24) = Some (st', t, Return v)
    /\ major v = 96 /\ 0 <= minor v <= 100.
Proof.
  destruct (Pgversion 513 256 (initial 513) (answering v9_6_24))
    as [[[st' t] [f|v]]|] eqn:E;
    [vm_compute in E; discriminate | | vm_compute in E; discriminate].
  exists st', t, v. split; [reflexivity|].
  destruct (Pgversion_record_invariants 513 256 (initial 513) (answering v9_6_24)
              st' t v eq_refl E)
    as (row & v1 & p & Hrow & F & _ & _ & Hmin & _).
  split; [|exact Hmin].
  vm_compute in E. injection E as _ _ <-. reflexivity.
Defined.

Lemma c_str_no_nul (s : list ascii) : ~ In NUL (c_str s).
Proof.
  induction s as [|c s IH]; simpl; [tauto|].
  unfold is_nul. destruct (Z.eqb_spec (code c) 0) as [E|E]; simpl; [tauto|].
  intros [->|H]; [apply E; reflexivity | tauto].
Qed.

Lemma c_str_until_nul (a b : list ascii) :
  ~ In NUL a -> c_str (a ++ NUL :: b) = a.
Proof.
  induction a as [|c a IH]; intro H; [reflexivity|].
  simpl. unfold is_nul.
  destruct (Z.eqb_spec (code c) 0) as [E|E].
  - exfalso. apply H. left. unfold code in E.
    change 0 with (Z.of_nat 0) in E. apply Nat2Z.inj in E.
    rewrite <- (ascii_nat_embedding c), E. reflexivity.
  - f_equal. apply IH. intro Hin. apply H. right. exact Hin.
Qed.

Lemma in_firstn {A : Type} (x : A) (n : nat) (l : list A) :
  In x (firstn n l) -> In x l.
Proof.
  revert l. induction n as [|n IH]; intros [|y l]; simpl; try tauto.
  intros [H|H]; [left; exact H | right; apply IH; exact H].
Qed.

(** What [strncpy] of the version string leaves in a buffer whose last
    character is NUL. *)
Lemma strncpy_terminated (dst src : list ascii) (size : nat) :
  length dst = size -> (1 <= size)%nat ->
  nth_error dst (size - 1) = Some NUL ->
  length (strncpy dst src (size - 1)) = size
  /\ nth_error (strncpy dst src (size - 1)) (size - 1) = Some NUL
  /\ c_str (strncpy dst src (size - 1)) = firstn (size - 1) (c_str src).
Proof.
  intros Hl Hs Hlast. unfold strncpy.
  set (body := firstn (size - 1) (c_str src)).
  assert (Lb : (length body <= size - 1)%nat) by (apply firstn_le_length).
  assert (Hd : skipn (size - 1) dst = [NUL]).
  { destruct (skipn (size - 1) dst) as [|x l] eqn:E.
    - apply (f_equal (@length ascii)) in E. rewrite length_skipn in E. simpl in E. lia.
    - assert (El : length (x :: l) = 1%nat)
        by (rewrite <- E, length_skipn; lia).
      destruct l; [|simpl in El; lia].
      rewrite <- (firstn_skipn (size - 1) dst) in Hlast.
      rewrite nth_error_app2 in Hlast by (rewrite length_firstn; lia).
      rewrite length_firstn, E in Hlast.
      replace (size - 1 - Nat.min (size - 1) (length dst))%nat with 0%nat in Hlast by lia.
      simpl in Hlast. congruence. }
  rewrite Hd.
  assert (Nb : ~ In NUL body).
  { intro H. apply (c_str_no_nul src). eapply in_firstn; exact H. }
  split; [|split].
  - rewrite !length_app, repeat_length. simpl. lia.
  - rewrite app_assoc, nth_error_app2
      by (rewrite length_app, repeat_length; lia).
    rewrite length_app, repeat_length.
    replace (size - 1 - (length body + (size - 1 - length body)))%nat with 0%nat by lia.
    reflexivity.
  - destruct (size - 1 - length body)%nat as [|k] eqn:K.
    + simpl. apply c_str_until_nul. exact Nb.
    + simpl repeat. rewrite <- app_comm_cons. apply c_str_until_nul. exact Nb.
Qed.


(** X18.  [strncpy] into [version_string] keeps the last character of the
    array, which is NUL: the string stored is the row cut after
    [sizeof(version_string) - 1] characters, the whole row when it is
    shorter than the array. *)
Theorem version_string_is_terminated :
  forall size relcache_size st b st' t v,
    major (pgversion st) = 0 ->
    length (version_string (pgversion st)) = size ->
    (1 <= size)%nat ->
    nth_error (version_string (pgversion st)) (size - 1) = Some NUL ->
    Pgversion size relcache_size st b = Some (st', t, Return v) ->
    exists row,
      version_row b = Some row
      /\ length (version_string v) = size
      /\ nth_error (version_string v) (size - 1) = Some NUL
      /\ c_str (version_string v) = firstn (size - 1) (c_str row)
      /\ (strlen row < Z.of_nat size -> c_str (version_string v) = c_str row).
Proof.
  intros size relcache_size st b st' t v Hm Hl Hs Hlast. unfold Pgversion.
  rewrite Hm. cbn [Z.eqb negb].
  destruct (negb (relcache st) && negb (create_ok b)); [discriminate|].
  destruct (version_row b) as [row|]; [|discriminate].
  destruct (strncpy_terminated (version_string (pgversion st)) (c_str row) size
              Hl Hs Hlast) as (S1 & S2 & S3).
  assert (Hidem : c_str (c_str row) = c_str row).
  { rewrite <- (app_nil_r (c_str row)) at 1.
    clear. induction row as [|c r IH]; [reflexivity|].
    simpl. destruct (is_nul c) eqn:E; [reflexivity|].
    simpl. rewrite E. f_equal. exact IH. }
  rewrite Hidem in S3.
  assert (Done : forall x,
             version_string x
             = strncpy (version_string (pgversion st)) (c_str row) (size - 1) ->
             exists row0,
               Some row = Some row0
               /\ length (version_string x) = size
               /\ nth_error (version_string x) (size - 1) = Some NUL
               /\ c_str (version_string x) = firstn (size - 1) (c_str row0)
               /\ (strlen row0 < Z.of_nat size ->
                   c_str (version_string x) = c_str row0)).
  { intros x ->. exists row. repeat apply conj; try assumption; try reflexivity.
    intro Hlt. rewrite S3. apply firstn_all2. unfold strlen in Hlt. lia. }
  destruct (first_segment (c_str row)) as [[[v1 p]|]|]; try discriminate.
  destruct ((v1 <? 6) || (v1 >? 100)); [discriminate|].
  destruct (v1 >=? 10).
  - destruct (next_segment (c_str row) p) as [[mn q]|]; [|discriminate].
    destruct ((mn <? 0) || (mn >? 100)); [discriminate|].
    intros [= _ _ <-]. apply Done. reflexivity.
  - destruct (next_segment (c_str row) p) as [[v2 q]|]; [|discriminate].
    destruct (next_segment (c_str row) q) as [[mn q']|]; [|discriminate].
    destruct ((mn <? 0) || (mn >? 100)); [discriminate|].
    intros [= _ _ <-]. apply Done. reflexivity.
Qed.

Lemma version_string_is_terminated_witness :
  exists st' t v,
    Pgversion 8 256 (initial 8) (answering v12_3) = Some (st', t, Return v)
    /\ c_str (version_string v) = lit "Postgre"
    /\ length (version_string v) = 8%nat.
Proof.
  destruct (Pgversion 8 256 (initial 8) (answering v12_3))
    as [[[st' t] [f|v]]|] eqn:E;
    [vm_compute in E; discriminate | | vm_compute in E; discriminate].
  exists st', t, v. split; [reflexivity|].
  destruct (version_string_is_terminated 8 256 (initial 8) (answering v12_3)
              st' t v eq_refl eq_refl ltac:(lia) eq_refl E)
    as (row & Hrow & L & _ & C & _).
  injection Hrow as <-. split; [rewrite C; reflexivity | exact L].
Defined.

Lemma creates_app (t1 t2 : list event) :
  creates (t1 ++ t2) = (creates t1 + creates t2)%nat.
Proof.
  induction t1 as [|e t1 IH]; [reflexivity|].
  destruct e; simpl; rewrite IH; reflexivity.
Qed.

(** One call creates the relation cache only when there is none, and
    leaves it in place. *)
Lemma Pgversion_creates (size : nat) (relcache_size : Z) (st st' : Static)
    (b : Backend) (t : list event) (a : answer) :
  Pgversion size relcache_size st b = Some (st', t, a) ->
  (creates t <= (if relcache st then 0 else 1))%nat
  /\ (relcache st = true -> relcache st' = true)
  /\ (creates t = 1%nat -> relcache st' = true \/ exists f, a = Fatal f).
Proof.
  unfold Pgversion.
  destruct (negb (major (pgversion st) =? 0)).
  { intros [= <- <- <-]. simpl. repeat apply conj; [lia | tauto | discriminate]. }
  destruct (relcache st) eqn:Rc; cbn [negb andb].
  - cbn [app].
    destruct (version_row b) as [row|];
      [|intros [= <- <- <-]; simpl; repeat apply conj; [lia | tauto | discriminate]].
    destruct (first_segment (c_str row)) as [[[v1 p]|]|];
      [ | intros [= <- <- <-]; simpl; repeat apply conj; [lia | tauto | discriminate]
        | discriminate].
    destruct ((v1 <? 6) || (v1 >? 100));
      [intros [= <- <- <-]; simpl; repeat apply conj; [lia | tauto | discriminate]|].
    destruct (v1 >=? 10).
    + destruct (next_segment (c_str row) p) as [[mn q]|]; [|discriminate].
      destruct ((mn <? 0) || (mn >? 100)); intros [= <- <- <-]; simpl;
        repeat apply conj; try lia; try tauto; discriminate.
    + destruct (next_segment (c_str row) p) as [[v2 q]|]; [|discriminate].
      destruct (next_segment (c_str row) q) as [[mn q']|]; [|discriminate].
      destruct ((mn <? 0) || (mn >? 100)); intros [= <- <- <-]; simpl;
        repeat apply conj; try lia; try tauto; discriminate.
  - destruct (negb (create_ok b)).
    { intros [= <- <- <-]. simpl. repeat apply conj; [lia | discriminate |].
      intros _. right. eexists. reflexivity. }
    cbn [app].
    destruct (version_row b) as [row|];
      [|intros [= <- <- <-]; simpl; repeat apply conj; [lia | tauto | tauto]].
    destruct (first_segment (c_str row)) as [[[v1 p]|]|];
      [ | intros [= <- <- <-]; simpl; repeat apply conj; [lia | tauto | tauto]
        | discriminate].
    destruct ((v1 <? 6) || (v1 >? 100));
      [intros [= <- <- <-]; simpl; repeat apply conj; [lia | tauto | tauto]|].
    destruct (v1 >=? 10).
    + destruct (next_segment (c_str row) p) as [[mn q]|]; [|discriminate].
      destruct ((mn <? 0) || (mn >? 100)); intros [= <- <- <-]; simpl;
        repeat apply conj; try lia; tauto.
    + destruct (next_segment (c_str row) p) as [[v2 q]|]; [|discriminate].
      destruct (next_segment (c_str row) q) as [[mn q']|]; [|discriminate].
      destruct ((mn <? 0) || (mn >? 100)); intros [= <- <- <-]; simpl;
        repeat apply conj; try lia; tauto.
Qed.

(** X19.  In a run of calls of [Pgversion] the relation cache is created at
    most once, and never when the pointer is already set. *)
Theorem relcache_is_created_at_most_once :
  forall size relcache_size bs st st' t answers,
    Pgversion_calls size relcache_size st bs = Some (st', t, answers) ->
    (creates t <= 1)%nat /\ (relcache st = true -> creates t = 0%nat).
Proof.
  intros size relcache_size bs.
  assert (G : forall st st' t answers,
             Pgversion_calls size relcache_size st bs = Some (st', t, answers) ->
             (creates t <= (if relcache st then 0 else 1))%nat).
  { induction bs as [|b bs IH]; intros st st' t answers H; simpl in H.
    - injection H as _ <- _. simpl. lia.
    - destruct (Pgversion size relcache_size st b) as [[[st1 t1] a]|] eqn:E;
        [|discriminate].
      destruct (Pgversion_creates _ _ _ _ _ _ _ E) as (C1 & C2 & C3).
      destruct a as [f|v].
      + injection H as _ <- _. exact C1.
      + destruct (Pgversion_calls size relcache_size st1 bs)
          as [[[st2 t2] ans]|] eqn:E2; [|discriminate].
        injection H as _ <- _. rewrite creates_app.
        specialize (IH _ _ _ _ E2).
        destruct (relcache st) eqn:Rc.
        * rewrite (C2 eq_refl) in IH. lia.
        * destruct (creates t1) as [|[|k]] eqn:K; [ | | lia].
          -- destruct (relcache st1); lia.
          -- destruct (C3 eq_refl) as [R|(f & Hf)]; [|discriminate].
             rewrite R in IH. lia. }
  intros st st' t answers H. specialize (G _ _ _ _ H).
  split; [destruct (relcache st); lia | intros R; rewrite R in G; lia].
Qed.

Lemma relcache_is_created_at_most_once_witness :
  exists st' t answers,
    Pgversion_calls 513 256 (initial 513)
                    [answering (lit "PostgreSQL 6.-60.1 on");
                     answering v12_3; answering v9_6_24]
    = Some (st', t, answers)
    /\ creates t = 1%nat
    /\ length t = 3%nat.
Proof.
  destruct (Pgversion_calls 513 256 (initial 513)
              [answering (lit "PostgreSQL 6.-60.1 on");
               answering v12_3; answering v9_6_24])
    as [[[st' t] answers]|] eqn:E; [|vm_compute in E; discriminate].
  exists st', t, answers. split; [reflexivity|].
  destruct (relcache_is_created_at_most_once _ _ _ _ _ _ _ E) as (C & _).
  assert (Ht : t = [pool_create_relcache 256 "SELECT version()";
                    pool_search_relcache "version";
                    pool_search_relcache "version"])
    by (vm_compute in E; injection E as _ <- _; reflexivity).
  split; [rewrite Ht; reflexivity | rewrite Ht; reflexivity].
Defined.

End Probe.

(** ** The watchdog IPC definitions *)

Section Watchdog.

Import WdIpcDefines.

(** X21.  The message types of the watchdog IPC are pairwise different, and
    so are the function names, the values of the two enumerations and the
    two life check states; [MAX_FAILOVER_CMDS] is above the value of every
    command. *)
Theorem wd_ipc_tags_are_distinct :
  NoDup message_types
  /\ NoDup function_names
  /\ (forall a b, WDFailoverCMDTypes_value a = WDFailoverCMDTypes_value b -> a = b)
  /\ (forall a b, WDFailoverCMDResults_value a = WDFailoverCMDResults_value b -> a = b)
  /\ (forall c, c <> MAX_FAILOVER_CMDS ->
                0 <= WDFailoverCMDTypes_value c
                  < WDFailoverCMDTypes_value MAX_FAILOVER_CMDS)
  /\ WD_LIFECHECK_NODE_STATUS_DEAD <> WD_LIFECHECK_NODE_STATUS_ALIVE.
Proof.
  split; [repeat constructor; simpl; intuition discriminate|].
  split; [repeat constructor; simpl; intuition discriminate|].
  split; [intros [] []; simpl; intro; (reflexivity || discriminate)|].
  split; [intros [] []; simpl; intro; (reflexivity || discriminate)|].
  split; [intros [] H; simpl; try lia; contradiction|].
  discriminate.
Qed.

Lemma wd_ipc_tags_are_distinct_witness :
  0 <= WDFailoverCMDTypes_value NODE_PROMOTE_CMD
    < WDFailoverCMDTypes_value MAX_FAILOVER_CMDS.
Proof.
  destruct wd_ipc_tags_are_distinct as (_ & _ & _ & _ & H & _).
  apply H. discriminate.
Defined.

End Watchdog.
